(** * certmagic-mongodb: the MongoDB storage backend of certmagic

    A shallow embedding of [mongoStore.go] together with the properties of
    its record store (Store, Load, Delete, Exists, List) and of its lease
    based lock manager (Lock, Unlock).

    The Go code is a thin layer over the MongoDB driver.  The driver and the
    server are not part of the repository; the module [mongo] below is the
    model of the calls the code makes: a collection is the list of its
    documents in natural order, every call receives the fault (if any) the
    medium injects into it, and a call that meets a fault has no effect. *)

From Stdlib Require Import List String Ascii ZArith Lia Bool Arith.
From Stdlib Require Import Strings.Byte.
Import ListNotations.

Local Open Scope string_scope.
Local Open Scope Z_scope.

(* ================================================================= *)
(** ** Go errors, time and contexts *)

(** The error values the code builds or compares against.  [Errorf p e] is
    [fmt.Errorf(p + "%w", e)]: the text [p] followed by the wrapped error. *)
Inductive error : Type :=
| ErrNoDocuments                 (* mongo.ErrNoDocuments *)
| ErrNotExist                    (* os.ErrNotExist *)
| Canceled                       (* context.Canceled *)
| DeadlineExceeded               (* context.DeadlineExceeded *)
| DuplicateKey (msg : string)    (* a server write error E11000 *)
| MediumError (msg : string)     (* any other driver or server fault *)
| SyscallError (msg : string)    (* *os.SyscallError *)
| Errorf (prefix : string) (wrapped : error).

Definition error_eq_dec : forall a b : error, {a = b} + {a <> b}.
Proof. decide equality; apply string_dec. Defined.

Module errors.

(** [errors.Is]: walks the chain of wrapped errors. *)
Fixpoint Is (e target : error) : bool :=
  if error_eq_dec e target then true
  else match e with
       | Errorf _ w => Is w target
       | _ => false
       end.

(** [err.Error()]. *)
Fixpoint Error (e : error) : string :=
  match e with
  | ErrNoDocuments => "mongo: no documents in result"
  | ErrNotExist => "file does not exist"
  | Canceled => "context canceled"
  | DeadlineExceeded => "context deadline exceeded"
  | DuplicateKey m => m
  | MediumError m => m
  | SyscallError m => m
  | Errorf p w => p ++ Error w
  end.

End errors.

Module time.

(** Instants and durations are counted in nanoseconds, as [time.Duration]
    is. *)
Definition Time := Z.
Definition Duration := Z.
Definition Millisecond : Duration := 1000000.
Definition Second : Duration := 1000000000.

Definition Add (t : Time) (d : Duration) : Time := t + d.

End time.

Module context.

(** A context is either never done ([Background], [TODO]) or becomes done
    at an instant, from which on [Err()] is the given error. *)
Record Context : Type := mkContext {
  done_at : option time.Time;
  reason : error
}.

Definition Background : Context := mkContext None Canceled.
Definition WithCancelAt (t : time.Time) : Context := mkContext (Some t) Canceled.
Definition WithDeadline (t : time.Time) : Context :=
  mkContext (Some t) DeadlineExceeded.

(** Whether the channel [ctx.Done()] is closed at instant [now]. *)
Definition Done (ctx : Context) (now : time.Time) : bool :=
  match done_at ctx with
  | Some t => t <=? now
  | None => false
  end.

Definition Err (ctx : Context) : error := reason ctx.

End context.

(* ================================================================= *)
(** ** The MongoDB collections and the driver calls *)

Module mongo.

(** A BSON datetime keeps milliseconds: a [time.Time] written into a
    document loses what is below. *)
Definition DateTime (t : time.Time) : time.Time :=
  (t / time.Millisecond) * time.Millisecond.

(** A document of [certmagic-storage]: [{key, value, ts}]. *)
Record StorageDoc : Type := mkStorageDoc {
  sd_key : string;
  sd_value : list byte;
  sd_ts : time.Time
}.

(** A document of [certmagic-locks]: [{key, instance, expires_at}]. *)
Record LockDoc : Type := mkLockDoc {
  ld_key : string;
  ld_instance : string;
  ld_expires_at : time.Time
}.

(** The database: both collections and the two indexes of the lock
    collection. *)
Record Database : Type := mkDatabase {
  storage : list StorageDoc;
  locks : list LockDoc;
  locks_unique_key : bool;      (* unique index on locks.key *)
  locks_ttl : bool              (* TTL index on locks.expires_at, 0 s *)
}.

Definition empty : Database := mkDatabase [] [] false false.

Definition with_storage (db : Database) (c : list StorageDoc) : Database :=
  mkDatabase c (locks db) (locks_unique_key db) (locks_ttl db).

Definition with_locks (db : Database) (c : list LockDoc) : Database :=
  mkDatabase (storage db) c (locks_unique_key db) (locks_ttl db).

(** [mongo.IsDuplicateKeyError]: looks through wrapped errors for a
    duplicate key write error. *)
Fixpoint IsDuplicateKeyError (e : error) : bool :=
  match e with
  | DuplicateKey _ => true
  | Errorf _ w => IsDuplicateKeyError w
  | _ => false
  end.

Definition has_key (k : string) (c : list LockDoc) : bool :=
  existsb (fun d => String.eqb (ld_key d) k) c.

Fixpoint unique_keys (c : list LockDoc) : bool :=
  match c with
  | [] => true
  | d :: c' => negb (has_key (ld_key d) c') && unique_keys c'
  end.

Definition E11000 (k : string) : error :=
  DuplicateKey ("E11000 duplicate key error collection: certmagic-locks index: key_1 dup key: { key: " ++ k ++ " }").

(** [locks.Indexes().CreateMany] with the two index models of
    [NewMongoStorage].  Building the unique index fails on a collection
    that already holds two documents with one key. *)
Definition CreateMany_locks (fault : option error) (db : Database)
  : Database * option error :=
  match fault with
  | Some e => (db, Some e)
  | None =>
      if unique_keys (locks db)
      then (mkDatabase (storage db) (locks db) true true, None)
      else (db, Some (E11000 ""))
  end.

(** [Locks.InsertOne]: the unique index turns the insert of a second
    document with the same key into a duplicate key error. *)
Definition InsertOne_locks (fault : option error) (d : LockDoc) (db : Database)
  : Database * option error :=
  match fault with
  | Some e => (db, Some e)
  | None =>
      if locks_unique_key db && has_key (ld_key d) (locks db)
      then (db, Some (E11000 (ld_key d)))
      else (with_locks db (locks db ++ [d]), None)
  end.

(** Removal of the first element that satisfies [f], with the number of
    elements removed (0 or 1). *)
Fixpoint remove_first {A : Type} (f : A -> bool) (c : list A) : list A * Z :=
  match c with
  | [] => ([], 0)
  | x :: c' =>
      if f x then (c', 1)
      else let '(r, n) := remove_first f c' in (x :: r, n)
  end.

(** [Locks.DeleteOne] with the filter [{key, instance}].  The result is
    the collection, [DeletedCount] and the error; a filter that matches
    nothing deletes nothing, counts 0 and is no error. *)
Definition lock_filter (k i : string) (d : LockDoc) : bool :=
  String.eqb (ld_key d) k && String.eqb (ld_instance d) i.

Definition DeleteOne_locks (fault : option error) (k i : string) (db : Database)
  : Database * Z * option error :=
  match fault with
  | Some e => (db, 0, Some e)
  | None =>
      let '(c, n) := remove_first (lock_filter k i) (locks db) in
      (with_locks db c, n, None)
  end.

(** The TTL monitor: with the TTL index (expireAfterSeconds = 0) the
    server removes the lock documents whose [expires_at] is reached. *)
Definition expired (now : time.Time) (d : LockDoc) : bool :=
  ld_expires_at d <=? now.

Definition ttl_sweep (now : time.Time) (db : Database) : Database :=
  if locks_ttl db
  then with_locks db (filter (fun d => negb (expired now d)) (locks db))
  else db.

Definition key_is (k : string) (d : StorageDoc) : bool :=
  String.eqb (sd_key d) k.

(** [Collection.UpdateOne] with filter [{key}], update [$set] of the
    three fields and upsert: the first matching document is rewritten,
    and a new document is inserted when none matches. *)
Fixpoint upsert (k : string) (d : StorageDoc) (c : list StorageDoc)
  : list StorageDoc :=
  match c with
  | [] => [d]
  | x :: c' => if key_is k x then d :: c' else x :: upsert k d c'
  end.

Definition UpdateOne_upsert (fault : option error) (k : string) (d : StorageDoc)
    (db : Database) : Database * option error :=
  match fault with
  | Some e => (db, Some e)
  | None => (with_storage db (upsert k d (storage db)), None)
  end.

(** [Collection.FindOne(filter).Decode]: the first matching document, or
    [ErrNoDocuments]. *)
Definition FindOne (fault : option error) (k : string) (db : Database)
  : option StorageDoc * option error :=
  match fault with
  | Some e => (None, Some e)
  | None =>
      match find (key_is k) (storage db) with
      | Some d => (Some d, None)
      | None => (None, Some ErrNoDocuments)
      end
  end.

(** [Collection.DeleteOne] with filter [{key}]. *)
Definition DeleteOne (fault : option error) (k : string) (db : Database)
  : Database * Z * option error :=
  match fault with
  | Some e => (db, 0, Some e)
  | None =>
      let '(c, n) := remove_first (key_is k) (storage db) in
      (with_storage db c, n, None)
  end.

(** [Collection.CountDocuments] with filter [{key}]: 0 with the error. *)
Definition CountDocuments (fault : option error) (k : string) (db : Database)
  : Z * option error :=
  match fault with
  | Some e => (0, Some e)
  | None => (Z.of_nat (List.length (filter (key_is k) (storage db))), None)
  end.

(** *** The [$regex] operator

    The server matches with PCRE.  The model covers the patterns the
    code can build that consist of the anchor [^] followed by ordinary
    characters and dots; [None] stands for a pattern or a subject outside
    this fragment, about which the model says nothing. *)

Inductive atom : Type :=
| Lit (c : ascii)      (* an ordinary character matches itself *)
| Dot.                 (* [.] matches any character but a newline *)

Definition metachars : list ascii :=
  list_ascii_of_string "\^$.|?*+()[]{}".

Definition is_meta (c : ascii) : bool := existsb (Ascii.eqb c) metachars.

Fixpoint atoms (p : string) : option (list atom) :=
  match p with
  | EmptyString => Some []
  | String c p' =>
      if Ascii.eqb c "." then option_map (cons Dot) (atoms p')
      else if is_meta c then None
      else option_map (cons (Lit c)) (atoms p')
  end.

Definition newline : ascii := ascii_of_nat 10.

(** A subject byte outside ASCII is part of a longer UTF-8 character,
    which a dot would consume whole. *)
Definition is_ascii (c : ascii) : bool := (nat_of_ascii c <? 128)%nat.

Fixpoint match_here (a : list atom) (s : string) : option bool :=
  match a, s with
  | [], _ => Some true
  | _ :: _, EmptyString => Some false
  | Lit c :: a', String x s' =>
      if Ascii.eqb c x then match_here a' s' else Some false
  | Dot :: a', String x s' =>
      if is_ascii x
      then if Ascii.eqb x newline then Some false else match_here a' s'
      else None
  end.

Definition regex_match (pattern subject : string) : option bool :=
  match pattern with
  | String c p =>
      if Ascii.eqb c "^"
      then match atoms p with
           | Some a => match_here a subject
           | None => None
           end
      else None
  | EmptyString => None
  end.

Fixpoint find_regex (pattern : string) (c : list StorageDoc)
  : option (list StorageDoc) :=
  match c with
  | [] => Some []
  | d :: c' =>
      match regex_match pattern (sd_key d), find_regex pattern c' with
      | Some b, Some r => Some (if b then d :: r else r)
      | _, _ => None
      end
  end.

(** A cursor: the documents it will yield and the error [cursor.Err()]
    reports once [Next] has returned false. *)
Record Cursor : Type := mkCursor {
  yields : list StorageDoc;
  cursor_err : option error
}.

(** [Collection.Find] with filter [{key: {$regex: pattern}}].  The call
    itself may fail ([fault]); the cursor may fail after it has yielded
    [n] documents ([cursor_fault = Some (n, e)]). *)
Definition Find (fault : option error) (cursor_fault : option (nat * error))
    (pattern : string) (db : Database) : option (option Cursor * option error) :=
  match fault with
  | Some e => Some (None, Some e)
  | None =>
      match find_regex pattern (storage db) with
      | None => None
      | Some r =>
          match cursor_fault with
          | Some (n, e) => Some (Some (mkCursor (firstn n r) (Some e)), None)
          | None => Some (Some (mkCursor r None), None)
          end
      end
  end.

End mongo.

Module os.

(** [os.Hostname]: the kernel's answer, or the empty string with the
    error when the lookup fails. *)
Definition Hostname (kernel : option string) : string * option error :=
  match kernel with
  | Some h => (h, None)
  | None => ("", Some (SyscallError "uname"))
  end.

End os.

(* ================================================================= *)
(** ** mongoStore.go *)

(** The collection handles are the names of the collections. *)
Record MongoStorage : Type := mkMongoStorage {
  Collection : string;
  Locks : string;
  LockTTL : time.Duration;
  InstanceID : string
}.

(** [NewMongoStorage].  [index_fault] is the fault met by [CreateMany],
    [kernel] what the host answers to a hostname lookup. *)
Definition NewMongoStorage (index_fault : option error) (kernel : option string)
    (db : mongo.Database) : mongo.Database * (option MongoStorage * option error) :=
  let collection := "certmagic-storage" in
  let locks := "certmagic-locks" in
  let '(db', err) := mongo.CreateMany_locks index_fault db in
  match err with
  | Some e => (db', (None, Some e))
  | None =>
      let '(hostname, _) := os.Hostname kernel in
      (db', (Some (mkMongoStorage collection locks (60 * time.Second) hostname),
             None))
  end.

(** The record store.  The context of these methods only travels to the
    driver call; a call cut short by it is one of the faults. *)

Definition Store (m : MongoStorage) (fault : option error) (now : time.Time)
    (key : string) (value : list byte) (db : mongo.Database)
  : mongo.Database * option error :=
  mongo.UpdateOne_upsert fault key
    (mongo.mkStorageDoc key value (mongo.DateTime now)) db.

Definition Load (m : MongoStorage) (fault : option error) (key : string)
    (db : mongo.Database) : list byte * option error :=
  let '(result, err) := mongo.FindOne fault key db in
  match err with
  | Some ErrNoDocuments =>
      ([], Some (Errorf ("MongoStorage.Load key " ++ key ++ " not found: ")
                        ErrNotExist))
  | _ =>
      (match result with Some d => mongo.sd_value d | None => [] end, err)
  end.

Definition Delete (m : MongoStorage) (fault : option error) (key : string)
    (db : mongo.Database) : mongo.Database * option error :=
  let '(db', _, err) := mongo.DeleteOne fault key db in
  match err with
  | Some e => (db', Some e)
  | None => (db', None)
  end.

Definition Exists (m : MongoStorage) (fault : option error) (key : string)
    (db : mongo.Database) : bool :=
  let '(count, _) := mongo.CountDocuments fault key db in
  0 <? count.

Definition List (m : MongoStorage) (fault : option error)
    (cursor_fault : option (nat * error)) (prefix : string) (recursive : bool)
    (db : mongo.Database) : option (list string * option error) :=
  match mongo.Find fault cursor_fault ("^" ++ prefix) db with
  | None => None
  | Some (_, Some e) => Some ([], Some e)
  | Some (None, None) => Some ([], None)
  | Some (Some cursor, None) =>
      Some (map mongo.sd_key (mongo.yields cursor), mongo.cursor_err cursor)
  end.

Record KeyInfo : Type := mkKeyInfo {
  Key : string;
  Modified : time.Time;
  Size : Z;
  IsTerminal : bool
}.

Definition Stat (m : MongoStorage) (fault : option error) (key : string)
    (db : mongo.Database) : KeyInfo * option error :=
  let '(result, err) := mongo.FindOne fault key db in
  match err with
  | Some ErrNoDocuments =>
      (mkKeyInfo "" 0 0 false,
       Some (Errorf ("MongoStorage.Stat key " ++ key ++ " not found: ")
                    ErrNotExist))
  | _ =>
      (match result with
       | Some d => mkKeyInfo key (mongo.sd_ts d)
                     (Z.of_nat (List.length (mongo.sd_value d))) true
       | None => mkKeyInfo key 0 0 true
       end, err)
  end.

(** *** The lock manager *)

(** What one pass through the body of the [for] loop of [Lock] ends in. *)
Inductive step_result : Type :=
| Return (err : option error)    (* [return nil] or [return err] *)
| Continue.                      (* [time.Sleep(2 s); continue] *)

(** The calls a pass makes, as a log: the insert with the error it
    returned, and the sleep with its length. *)
Inductive event : Type :=
| Insert (at_time : time.Time) (err : option error)
| Sleep (at_time : time.Time) (d : time.Duration).

(** One pass through the loop body at instant [now]: the [select] on
    [ctx.Done()], then the insert of the document [lock] built before the
    loop. *)
Definition Lock_iteration (ctx : context.Context) (key : string)
    (lock : mongo.LockDoc) (fault : option error) (now : time.Time)
    (db : mongo.Database) : mongo.Database * step_result * list event :=
  if context.Done ctx now then
    (db,
     Return (Some (Errorf ("timeout acquiring lock for key " ++ key ++ ": ")
                          (context.Err ctx))),
     [])
  else
    let '(db', err) := mongo.InsertOne_locks fault lock db in
    match err with
    | None => (db', Return None, [Insert now None])
    | Some e =>
        if mongo.IsDuplicateKeyError e
        then (db', Continue, [Insert now err; Sleep now (2 * time.Second)])
        else (db',
              Return (Some (Errorf ("error trying to acquire lock for key "
                                      ++ key ++ ": ") e)),
              [Insert now err])
    end.

(** While [Lock] runs, the database is what the other processes make of
    it: [db_at t] is its state at instant [t], [fault_at t] the fault a
    call made at [t] meets.  [Lock] itself changes the database only by the
    insert that ends it.  The calls of a pass are made at one instant; only
    [time.Sleep] takes time, two seconds each. *)
Record World : Type := mkWorld {
  db_at : time.Time -> mongo.Database;
  fault_at : time.Time -> option error
}.

Record LockResult : Type := mkLockResult {
  lr_err : option error;           (* the value [Lock] returns *)
  lr_at : time.Time;               (* the instant it returns at *)
  lr_db : mongo.Database;          (* the database it leaves *)
  lr_trace : list event            (* the calls it made *)
}.

(** The [for] loop, with [fuel] bounding the number of passes: [None] is a
    loop still running when the fuel is spent. *)
Fixpoint Lock_loop (fuel : nat) (ctx : context.Context) (key : string)
    (lock : mongo.LockDoc) (w : World) (now : time.Time) : option LockResult :=
  match fuel with
  | O => None
  | S fuel' =>
      let '(db', r, evs) :=
        Lock_iteration ctx key lock (fault_at w now) now (db_at w now) in
      match r with
      | Return err => Some (mkLockResult err now db' evs)
      | Continue =>
          match Lock_loop fuel' ctx key lock w (now + 2 * time.Second) with
          | Some res =>
              Some (mkLockResult (lr_err res) (lr_at res) (lr_db res)
                                 (evs ++ lr_trace res))
          | None => None
          end
      end
  end.

(** The lock document, built once from the instant [Lock] is entered. *)
Definition lock_document (m : MongoStorage) (key : string) (now : time.Time)
  : mongo.LockDoc :=
  let expiration := time.Add now (LockTTL m) in
  mongo.mkLockDoc key (InstanceID m) (mongo.DateTime expiration).

Definition Lock (m : MongoStorage) (ctx : context.Context) (key : string)
    (w : World) (now : time.Time) (fuel : nat) : option LockResult :=
  let lock := lock_document m key now in
  Lock_loop fuel ctx key lock w now.

Definition Unlock (m : MongoStorage) (fault : option error) (key : string)
    (db : mongo.Database) : mongo.Database * option error :=
  let '(db', _, err) := mongo.DeleteOne_locks fault key (InstanceID m) db in
  match err with
  | Some e =>
      (db', Some (Errorf ("failed to release lock for key " ++ key ++ ": ") e))
  | None => (db', None)
  end.

(** *** Several callers on one database

    The callers are numbered; caller [i] works through its own
    [MongoStorage] [ms i].  The driver calls are the atomic steps, and a run
    is any interleaving of them with the passing of time and the sweeps of
    the TTL monitor.  A caller sleeping in [Lock] is [Running] and may be
    scheduled at any instant, which only adds runs. *)

Inductive pc : Type :=
| Idle                               (* in no call, holding nothing *)
| Running (ctx : context.Context) (key : string) (lock : mongo.LockDoc)
                                     (* inside the loop of [Lock] *)
| Holding (key : string)             (* [Lock] returned nil, lease present *)
| Lost (key : string).               (* [Lock] returned nil, lease removed *)

Record System : Type := mkSystem {
  sys_db : mongo.Database;
  sys_now : time.Time;
  sys_pc : nat -> pc
}.

Inductive action : Type :=
| Tick (d : time.Duration)                        (* time passes *)
| Sweep                                           (* the TTL monitor runs *)
| CallLock (i : nat) (ctx : context.Context) (key : string)
| Iterate (i : nat) (fault : option error)        (* one pass of the loop *)
| CallUnlock (i : nat) (key : string) (fault : option error).

Definition set_pc (pcs : nat -> pc) (i : nat) (p : pc) : nat -> pc :=
  fun j => if Nat.eqb j i then p else pcs j.

(** A holder whose lease document has left the collection has lost the
    lock, whether it knows or not. *)
Definition settle (db : mongo.Database) (pcs : nat -> pc) : nat -> pc :=
  fun i =>
    match pcs i with
    | Holding k => if mongo.has_key k (mongo.locks db) then Holding k else Lost k
    | p => p
    end.

Definition step (ms : nat -> MongoStorage) (a : action) (s : System)
  : option System :=
  let db := sys_db s in
  let now := sys_now s in
  let pcs := sys_pc s in
  match a with
  | Tick d =>
      if 0 <=? d then Some (mkSystem db (now + d) pcs) else None
  | Sweep =>
      let db' := mongo.ttl_sweep now db in
      Some (mkSystem db' now (settle db' pcs))
  | CallLock i ctx key =>
      match pcs i with
      | Idle =>
          Some (mkSystem db now
                  (set_pc pcs i (Running ctx key (lock_document (ms i) key now))))
      | _ => None
      end
  | Iterate i fault =>
      match pcs i with
      | Running ctx key lock =>
          let '(db', r, _) := Lock_iteration ctx key lock fault now db in
          let p := match r with
                   | Return None => Holding key
                   | Return (Some _) => Idle
                   | Continue => Running ctx key lock
                   end in
          Some (mkSystem db' now (set_pc pcs i p))
      | _ => None
      end
  | CallUnlock i key fault =>
      match pcs i with
      | Running _ _ _ => None
      | p =>
          let '(db', err) := Unlock (ms i) fault key db in
          let p' := match err, p with
                    | None, Holding k | None, Lost k =>
                        if String.eqb k key then Idle else p
                    | _, _ => p
                    end in
          Some (mkSystem db' now (settle db' (set_pc pcs i p')))
      end
  end.

Fixpoint run (ms : nat -> MongoStorage) (acts : list action) (s : System)
  : option System :=
  match acts with
  | [] => Some s
  | a :: acts' =>
      match step ms a s with
      | Some s' => run ms acts' s'
      | None => None
      end
  end.

(** Caller [i] holds the lock on [k]. *)
Definition holds (s : System) (i : nat) (k : string) : Prop :=
  sys_pc s i = Holding k.

(** The number of lock documents with key [k]. *)
Definition lock_count (k : string) (db : mongo.Database) : nat :=
  List.length (filter (fun d => String.eqb (mongo.ld_key d) k) (mongo.locks db)).

(** Every caller idle, at instant [t0], on database [db]. *)
Definition all_idle (db : mongo.Database) (t0 : time.Time) : System :=
  mkSystem db t0 (fun _ => Idle).

(** *** Histories of the record store *)

(** The writes that reach the storage collection, none of them meeting a
    fault. *)
Inductive write : Type :=
| WStore (key : string) (value : list byte) (now : time.Time)
| WDelete (key : string).

Definition write_key (w : write) : string :=
  match w with
  | WStore k _ _ => k
  | WDelete k => k
  end.

Definition apply_write (m : MongoStorage) (w : write) (db : mongo.Database)
  : mongo.Database :=
  match w with
  | WStore k v now => fst (Store m None now k v db)
  | WDelete k => fst (Delete m None k db)
  end.

Definition apply_writes (m : MongoStorage) (ws : list write)
    (db : mongo.Database) : mongo.Database :=
  fold_left (fun d w => apply_write m w d) ws db.

(** The error [Load] builds when no document matches. *)
Definition not_found (k : string) : error :=
  Errorf ("MongoStorage.Load key " ++ k ++ " not found: ") ErrNotExist.

(** The number of records with key [k]. *)
Definition record_count (k : string) (db : mongo.Database) : nat :=
  List.length (filter (mongo.key_is k) (mongo.storage db)).

(** The errors [Lock] and [Unlock] build. *)
Definition timeout_error (ctx : context.Context) (key : string) : error :=
  Errorf ("timeout acquiring lock for key " ++ key ++ ": ") (context.Err ctx).

Definition acquire_error (key : string) (e : error) : error :=
  Errorf ("error trying to acquire lock for key " ++ key ++ ": ") e.

Definition release_error (key : string) (e : error) : error :=
  Errorf ("failed to release lock for key " ++ key ++ ": ") e.

(** *** Traces and scenarios of the lock manager *)

Definition event_time (ev : event) : time.Time :=
  match ev with
  | Insert t _ => t
  | Sleep t _ => t
  end.

(** The log of [n] passes that each find the key taken, the first at
    instant [t]: an insert refused as a duplicate, then the sleep. *)
Fixpoint polls (k : string) (t : time.Time) (n : nat) : list event :=
  match n with
  | O => []
  | S n' =>
      Insert t (Some (mongo.E11000 k)) :: Sleep t (2 * time.Second)
        :: polls k (t + 2 * time.Second) n'
  end.

(** The instant of pass number [i] of a [Lock] entered at [t0]. *)
Definition pass_time (t0 : time.Time) (i : nat) : time.Time :=
  t0 + 2 * time.Second * Z.of_nat i.

(** At instant [t] the lock on [k] is taken and the medium answers. *)
Definition held_at (w : World) (k : string) (t : time.Time) : Prop :=
  fault_at w t = None /\
  mongo.locks_unique_key (db_at w t) = true /\
  mongo.has_key k (mongo.locks (db_at w t)) = true.

(** A world in which another holder keeps the lock on [k] until it
    releases it at instant [release]; the indexes are in place and the
    medium never fails. *)
Definition held_until (k holder : string) (release : time.Time) : World :=
  mkWorld
    (fun t =>
       if t <? release
       then mongo.mkDatabase []
              [mongo.mkLockDoc k holder (release + 60 * time.Second)] true true
       else mongo.mkDatabase [] [] true true)
    (fun _ => None).

(** The storage a successful [NewMongoStorage] returns on a host named
    [host]. *)
Definition storage_of (host : string) : MongoStorage :=
  mkMongoStorage "certmagic-storage" "certmagic-locks" (60 * time.Second) host.

(** *** Prefixes *)

(** A prefix none of whose characters means anything to the regular
    expression engine. *)
Definition literal (p : string) : bool :=
  forallb (fun c => negb (mongo.is_meta c)) (list_ascii_of_string p).

(** A record with key [k] and no content. *)
Definition record (k : string) : mongo.StorageDoc := mongo.mkStorageDoc k [] 0.

(** *** The invariant of the runs *)

(** The unique index is in place, no two lock documents share a key, a
    holder's lease document is in the collection, no two callers hold one
    key, and a caller inside [Lock] carries a document for its key. *)
Definition invariant (s : System) : Prop :=
  mongo.locks_unique_key (sys_db s) = true /\
  mongo.unique_keys (mongo.locks (sys_db s)) = true /\
  (forall i k, sys_pc s i = Holding k ->
               mongo.has_key k (mongo.locks (sys_db s)) = true) /\
  (forall i j k, sys_pc s i = Holding k -> sys_pc s j = Holding k -> i = j) /\
  (forall i ctx k lock, sys_pc s i = Running ctx k lock ->
                        mongo.ld_key lock = k).

(** *** Sample runs *)

(** Caller 0 runs on "host-a", every other caller on "host-b". *)
Definition two_hosts (i : nat) : MongoStorage :=
  storage_of (if Nat.eqb i 0 then "host-a" else "host-b").

(** Both callers ask for "cert-x"; caller 0 wins, caller 1 polls, caller 0
    releases, caller 1 acquires. *)
Definition contention : list action :=
  [CallLock 0 context.Background "cert-x";
   CallLock 1 context.Background "cert-x";
   Iterate 0 None;
   Iterate 1 None;
   Tick (2 * time.Second);
   Iterate 1 None;
   CallUnlock 0 "cert-x" None;
   Tick (2 * time.Second);
   Iterate 1 None].

(** The database with the indexes built and nothing stored. *)
Definition fresh : mongo.Database := mongo.mkDatabase [] [] true true.

(** A world in which [holder] keeps the lock on [k] and the medium fails
    the calls made at instant [outage] with the error [e]. *)
Definition outage_at (k holder : string) (outage : time.Time) (e : error)
  : World :=
  mkWorld
    (fun _ => mongo.mkDatabase []
                [mongo.mkLockDoc k holder (3600 * time.Second)] true true)
    (fun t => if t =? outage then Some e else None).

(** *** Further notions *)

(** No key has two records. *)
Definition one_record_per_key (db : mongo.Database) : Prop :=
  forall k, (record_count k db <= 1)%nat.

(** The number of sleeps in a log. *)
Fixpoint sleeps (tr : list event) : nat :=
  match tr with
  | [] => O
  | Sleep _ _ :: tr' => S (sleeps tr')
  | Insert _ _ :: tr' => sleeps tr'
  end.

(** At instant [t] no document holds [k] and the medium answers. *)
Definition free_at (w : World) (k : string) (t : time.Time) : Prop :=
  fault_at w t = None /\
  mongo.has_key k (mongo.locks (db_at w t)) = false.

(** A world in which [holder] keeps the lock on [k] for ever. *)
Definition held_forever (k holder : string) : World :=
  mkWorld
    (fun t => mongo.mkDatabase []
                [mongo.mkLockDoc k holder (t + 60 * time.Second)] true true)
    (fun _ => None).

(** A world that is always the database [db], with no fault. *)
Definition still (db : mongo.Database) : World :=
  mkWorld (fun _ => db) (fun _ => None).

(** Every lease, written or about to be written, ends at most [ttl] from
    now, and the TTL index is in place. *)
Definition leases_within (ttl : time.Duration) (s : System) : Prop :=
  mongo.locks_ttl (sys_db s) = true /\
  (forall d, In d (mongo.locks (sys_db s)) ->
             mongo.ld_expires_at d <= sys_now s + ttl) /\
  (forall i ctx k lock, sys_pc s i = Running ctx k lock ->
                        mongo.ld_expires_at lock <= sys_now s + ttl).

(** A holder's lease document carries its own InstanceID, and so does the
    document a caller inside [Lock] is about to insert. *)
Definition owns_lease (ms : nat -> MongoStorage) (s : System) : Prop :=
  (forall i k, sys_pc s i = Holding k ->
               exists d, In d (mongo.locks (sys_db s)) /\
                         mongo.ld_key d = k /\
                         mongo.ld_instance d = InstanceID (ms i)) /\
  (forall i ctx k lock, sys_pc s i = Running ctx k lock ->
                        mongo.ld_instance lock = InstanceID (ms i)).

(* ================================================================= *)
(** ** The record store *)

Section RecordStore.

Import mongo.

Variable m : MongoStorage.

Lemma key_is_true (k : string) (d : StorageDoc) :
  key_is k d = true <-> sd_key d = k.
Proof. unfold key_is. apply String.eqb_eq. Qed.

Lemma key_is_false (k : string) (d : StorageDoc) :
  key_is k d = false <-> sd_key d <> k.
Proof. unfold key_is. apply String.eqb_neq. Qed.

Lemma find_upsert_same (k : string) (d : StorageDoc) (c : list StorageDoc) :
  sd_key d = k -> find (key_is k) (upsert k d c) = Some d.
Proof.
  intros Hd. apply key_is_true in Hd.
  induction c as [|x c IH]; simpl.
  - now rewrite Hd.
  - destruct (key_is k x) eqn:Hx; simpl.
    + now rewrite Hd.
    + now rewrite Hx.
Qed.

Lemma find_upsert_other (k k' : string) (d : StorageDoc) (c : list StorageDoc) :
  k' <> k -> sd_key d = k' ->
  find (key_is k) (upsert k' d c) = find (key_is k) c.
Proof.
  intros Hne Hd.
  assert (Hdk : key_is k d = false) by (apply key_is_false; congruence).
  induction c as [|x c IH]; simpl.
  - now rewrite Hdk.
  - destruct (key_is k' x) eqn:Hx; simpl.
    + rewrite Hdk.
      apply key_is_true in Hx.
      assert (Hxk : key_is k x = false) by (apply key_is_false; congruence).
      now rewrite Hxk.
    + now rewrite IH.
Qed.

Lemma find_remove_first_other (k k' : string) (c : list StorageDoc) :
  k' <> k ->
  find (key_is k) (fst (remove_first (key_is k') c)) = find (key_is k) c.
Proof.
  intros Hne.
  induction c as [|x c IH]; simpl; [reflexivity|].
  destruct (key_is k' x) eqn:Hx; simpl.
  - apply key_is_true in Hx.
    assert (Hxk : key_is k x = false) by (apply key_is_false; congruence).
    now rewrite Hxk.
  - destruct (remove_first (key_is k') c) as [r n]; simpl in *.
    now rewrite IH.
Qed.

Lemma remove_first_absent {A : Type} (f : A -> bool) (c : list A) :
  find f c = None -> remove_first f c = (c, 0).
Proof.
  induction c as [|x c IH]; simpl; [reflexivity|].
  destruct (f x); [discriminate|].
  intros H. now rewrite (IH H).
Qed.

Lemma find_filter_nil {A : Type} (f : A -> bool) (c : list A) :
  find f c = None <-> filter f c = [].
Proof.
  induction c as [|x c IH]; simpl; [tauto|].
  destruct (f x); [split; discriminate | exact IH].
Qed.

Lemma apply_write_other (k : string) (w : write) (db : Database) :
  write_key w <> k ->
  find (key_is k) (storage (apply_write m w db)) = find (key_is k) (storage db).
Proof.
  destruct w as [k' v now | k']; simpl; intros Hne.
  - now apply find_upsert_other.
  - unfold Delete, DeleteOne.
    pose proof (find_remove_first_other k k' (storage db) Hne) as H.
    destruct (remove_first (key_is k') (storage db)) as [r n]; simpl in *.
    exact H.
Qed.

Lemma apply_writes_other (k : string) (ws : list write) (db : Database) :
  Forall (fun w => write_key w <> k) ws ->
  find (key_is k) (storage (apply_writes m ws db)) = find (key_is k) (storage db).
Proof.
  intros H. revert db.
  induction H as [|w ws Hw _ IH]; intros db; [reflexivity|].
  change (apply_writes m (w :: ws) db)
    with (apply_writes m ws (apply_write m w db)).
  rewrite IH. now apply apply_write_other.
Qed.

Lemma Load_found (k : string) (d : StorageDoc) (db : Database) :
  find (key_is k) (storage db) = Some d ->
  Load m None k db = (sd_value d, None).
Proof. intros H. unfold Load, FindOne. now rewrite H. Qed.

Lemma Load_absent (k : string) (db : Database) :
  find (key_is k) (storage db) = None ->
  Load m None k db = ([], Some (not_found k)).
Proof. intros H. unfold Load, FindOne. now rewrite H. Qed.

End RecordStore.

Lemma with_storage_id (db : mongo.Database) :
  mongo.with_storage db (mongo.storage db) = db.
Proof. now destruct db. Qed.

Lemma remove_first_count {A : Type} (f : A -> bool) (c : list A) :
  List.length (filter f (fst (mongo.remove_first f c)))
  = Nat.pred (List.length (filter f c)).
Proof.
  induction c as [|x c IH]; simpl; [reflexivity|].
  destruct (f x) eqn:Hx; simpl; [reflexivity|].
  destruct (mongo.remove_first f c) as [r n]; simpl in *.
  now rewrite Hx.
Qed.

Lemma Delete_no_fault (m : MongoStorage) (k : string) (db : mongo.Database) :
  Delete m None k db
  = (mongo.with_storage db
       (fst (mongo.remove_first (mongo.key_is k) (mongo.storage db))), None).
Proof.
  unfold Delete, mongo.DeleteOne.
  now destruct (mongo.remove_first (mongo.key_is k) (mongo.storage db)).
Qed.

Lemma Delete_absent (m : MongoStorage) (k : string) (db : mongo.Database) :
  find (mongo.key_is k) (mongo.storage db) = None ->
  Delete m None k db = (db, None).
Proof.
  intros H. rewrite Delete_no_fault, (remove_first_absent _ _ H).
  simpl. now rewrite with_storage_id.
Qed.

(** C6.  Store(K, V) followed by Load(K), with no write to K in between
    (writes to other keys may interleave), returns exactly V and no error;
    Load of a key that no write ever stored returns the not-found error,
    which wraps [os.ErrNotExist], while a fault of the medium comes back as
    it is and does not wrap it. *)
Theorem Store_Load_round_trip :
  forall (m : MongoStorage) (K : string) (V : list byte) (now : time.Time)
         (db : mongo.Database) (ws : list write),
    Forall (fun w => write_key w <> K) ws ->
    snd (Store m None now K V db) = None /\
    Load m None K (apply_writes m ws (fst (Store m None now K V db)))
    = (V, None) /\
    Load m None K (apply_writes m ws mongo.empty) = ([], Some (not_found K)) /\
    errors.Is (not_found K) ErrNotExist = true /\
    (forall (msg : string) (db' : mongo.Database),
        Load m (Some (MediumError msg)) K db' = ([], Some (MediumError msg)) /\
        errors.Is (MediumError msg) ErrNotExist = false).
Proof.
  intros m K V now db ws Hws.
  split; [reflexivity|].
  split.
  - set (d := mongo.mkStorageDoc K V (mongo.DateTime now)).
    change V with (mongo.sd_value d).
    apply Load_found.
    rewrite (apply_writes_other m K ws _ Hws). simpl.
    now apply find_upsert_same.
  - split.
    + apply Load_absent.
      now rewrite (apply_writes_other m K ws _ Hws).
    + split; [reflexivity|].
      intros msg db'. split; reflexivity.
Qed.

(** C7.  Delete(K) with no record for K is a successful no-op, no Delete
    that reaches the store returns an error, the second of two Deletes
    included, and where K has at most one record the second Delete finds
    nothing and changes nothing. *)
Theorem Delete_idempotent :
  forall (m : MongoStorage) (K : string) (db : mongo.Database),
    (find (mongo.key_is K) (mongo.storage db) = None ->
     Delete m None K db = (db, None)) /\
    snd (Delete m None K db) = None /\
    snd (Delete m None K (fst (Delete m None K db))) = None /\
    ((record_count K db <= 1)%nat ->
     Delete m None K (fst (Delete m None K db))
     = (fst (Delete m None K db), None)).
Proof.
  intros m K db.
  split; [apply Delete_absent|].
  split; [now rewrite Delete_no_fault|].
  split; [now rewrite !Delete_no_fault|].
  intros Hc. apply Delete_absent.
  rewrite Delete_no_fault. simpl.
  apply find_filter_nil.
  apply length_zero_iff_nil.
  rewrite remove_first_count.
  unfold record_count in Hc. lia.
Qed.

(** C8.  Exists returns a boolean whatever happens: true exactly when the
    count succeeds and finds a record, false on every fault, also when the
    record is there. *)
Theorem Exists_collapses_errors :
  forall (m : MongoStorage) (K : string) (db : mongo.Database),
    (forall fault : option error,
        Exists m fault K db = true <->
        fault = None /\ (0 < record_count K db)%nat) /\
    (forall e : error, Exists m (Some e) K db = false) /\
    (forall (e : error) (V : list byte) (now : time.Time),
        Exists m None K (fst (Store m None now K V db)) = true /\
        Exists m (Some e) K (fst (Store m None now K V db)) = false).
Proof.
  intros m K db.
  assert (H1 : forall (fault : option error) (d : mongo.Database),
             Exists m fault K d = true <->
             fault = None /\ (0 < record_count K d)%nat).
  { intros [e|] d; unfold Exists, mongo.CountDocuments, record_count; simpl.
    - split; [discriminate | intros [H _]; discriminate].
    - rewrite Z.ltb_lt. split; [intros H; split; [reflexivity | lia] | lia]. }
  split; [intros fault; apply H1|].
  split; [reflexivity|].
  intros e V now. split; [|reflexivity].
  apply H1. split; [reflexivity|].
  unfold record_count. simpl.
  pose proof (find_upsert_same K (mongo.mkStorageDoc K V (mongo.DateTime now))
                (mongo.storage db) eq_refl) as Hf.
  destruct (filter (mongo.key_is K)
              (mongo.upsert K (mongo.mkStorageDoc K V (mongo.DateTime now))
                 (mongo.storage db))) eqn:Hfl; simpl; [|lia].
  apply find_filter_nil in Hfl. congruence.
Qed.

(* ================================================================= *)
(** ** The loop of Lock *)

Section LockLoop.

Import mongo.

Variables (ctx : context.Context) (key : string) (lock : LockDoc).
Hypothesis lock_key : ld_key lock = key.

Lemma iteration_done (fault : option error) (now : time.Time) (db : Database) :
  context.Done ctx now = true ->
  Lock_iteration ctx key lock fault now db
  = (db, Return (Some (timeout_error ctx key)), []).
Proof. intros H. unfold Lock_iteration. now rewrite H. Qed.

Lemma iteration_held (now : time.Time) (db : Database) :
  context.Done ctx now = false ->
  locks_unique_key db = true ->
  has_key key (locks db) = true ->
  Lock_iteration ctx key lock None now db
  = (db, Continue,
     [Insert now (Some (E11000 key)); Sleep now (2 * time.Second)]).
Proof.
  intros Hd Hu Hk. unfold Lock_iteration, InsertOne_locks.
  rewrite Hd, Hu, lock_key, Hk. reflexivity.
Qed.

Lemma iteration_fault (e : error) (now : time.Time) (db : Database) :
  context.Done ctx now = false ->
  IsDuplicateKeyError e = false ->
  Lock_iteration ctx key lock (Some e) now db
  = (db, Return (Some (acquire_error key e)), [Insert now (Some e)]).
Proof.
  intros Hd He. unfold Lock_iteration, InsertOne_locks.
  rewrite Hd. simpl. now rewrite He.
Qed.

Lemma iteration_free (now : time.Time) (db : Database) :
  context.Done ctx now = false ->
  locks_unique_key db && has_key key (locks db) = false ->
  Lock_iteration ctx key lock None now db
  = (with_locks db (locks db ++ [lock]), Return None, [Insert now None]).
Proof.
  intros Hd Hf. unfold Lock_iteration, InsertOne_locks.
  rewrite Hd, lock_key, Hf. reflexivity.
Qed.

(** More fuel does not change a result. *)
Lemma Lock_loop_fuel (w : World) (fuel : nat) :
  forall (now : time.Time) (r : LockResult) (extra : nat),
    Lock_loop fuel ctx key lock w now = Some r ->
    Lock_loop (fuel + extra) ctx key lock w now = Some r.
Proof.
  induction fuel as [|fuel IH]; intros now r extra; cbn [Lock_loop Nat.add];
    [discriminate|].
  destruct (Lock_iteration ctx key lock (fault_at w now) now (db_at w now))
    as [[db' res] evs].
  destruct res as [err|]; [trivial|].
  destruct (Lock_loop fuel ctx key lock w (now + 2 * time.Second)) as [r'|] eqn:Hr;
    [|discriminate].
  now rewrite (IH _ _ extra Hr).
Qed.

Lemma pass_time_succ (t : time.Time) (i : nat) :
  pass_time (t + 2 * time.Second) i = pass_time t (S i).
Proof. unfold pass_time. lia. Qed.

Lemma pass_time_0 (t : time.Time) : pass_time t 0 = t.
Proof. unfold pass_time. simpl. lia. Qed.

(** [n] passes that find the key taken lead, two seconds each, to pass
    number [n], and leave their log in front of what follows. *)
Lemma Lock_loop_polls (w : World) (n : nat) :
  forall (fuel : nat) (t : time.Time),
    (forall i, (i < n)%nat ->
               context.Done ctx (pass_time t i) = false /\
               held_at w key (pass_time t i)) ->
    Lock_loop (n + fuel) ctx key lock w t
    = match Lock_loop fuel ctx key lock w (pass_time t n) with
      | Some r =>
          Some (mkLockResult (lr_err r) (lr_at r) (lr_db r)
                  (polls key t n ++ lr_trace r))
      | None => None
      end.
Proof.
  induction n as [|n IH]; intros fuel t H.
  - rewrite pass_time_0. simpl.
    destruct (Lock_loop fuel ctx key lock w t) as [[e a d tr]|]; reflexivity.
  - destruct (H 0%nat ltac:(lia)) as [Hd [Hf [Hu Hk]]].
    rewrite pass_time_0 in Hd, Hf, Hu, Hk.
    change (S n + fuel)%nat with (S (n + fuel)).
    cbn [Lock_loop]. rewrite Hf, (iteration_held _ _ Hd Hu Hk).
    rewrite IH.
    + rewrite pass_time_succ.
      destruct (Lock_loop fuel ctx key lock w (pass_time t (S n)))
        as [[e a d tr]|]; reflexivity.
    + intros i Hi. rewrite pass_time_succ. apply H. lia.
Qed.

(** A successful [Lock_loop] has inserted [lock], unchanged, at the
    instant it returns. *)
Lemma Lock_loop_success (w : World) (fuel : nat) :
  forall (now : time.Time) (r : LockResult),
    Lock_loop fuel ctx key lock w now = Some r ->
    lr_err r = None ->
    lr_db r = with_locks (db_at w (lr_at r))
                (locks (db_at w (lr_at r)) ++ [lock]) /\
    locks_unique_key (db_at w (lr_at r))
      && has_key key (locks (db_at w (lr_at r))) = false /\
    now <= lr_at r.
Proof.
  assert (Hlater : forall a b : time.Time, a + 2 * time.Second <= b -> a <= b)
    by (unfold time.Second; intros; lia).
  induction fuel as [|fuel IH]; intros now r; cbn [Lock_loop]; [discriminate|].
  unfold Lock_iteration, InsertOne_locks.
  destruct (context.Done ctx now).
  { intros H; injection H as <-. discriminate. }
  destruct (fault_at w now) as [e|].
  - destruct (IsDuplicateKeyError e).
    + destruct (Lock_loop fuel ctx key lock w (now + 2 * time.Second))
        as [r'|] eqn:Hr; [|discriminate].
      intros H; injection H as <-. cbn [lr_err lr_at lr_db]. intros He.
      destruct (IH _ _ Hr He) as [H1 [H2 H3]]. auto.
    + intros H; injection H as <-. discriminate.
  - rewrite lock_key.
    destruct (locks_unique_key (db_at w now) && has_key key (locks (db_at w now)))
      eqn:Hc.
    + cbn [IsDuplicateKeyError E11000].
      destruct (Lock_loop fuel ctx key lock w (now + 2 * time.Second))
        as [r'|] eqn:Hr; [|discriminate].
      intros H; injection H as <-. cbn [lr_err lr_at lr_db]. intros He.
      destruct (IH _ _ Hr He) as [H1 [H2 H3]]. auto.
    + intros H; injection H as <-. cbn [lr_err lr_at lr_db]. intros _.
      repeat split; trivial. lia.
Qed.

End LockLoop.

Lemma Is_refl (e : error) : errors.Is e e = true.
Proof.
  destruct e; cbn [errors.Is];
    match goal with |- context [error_eq_dec ?a ?b] =>
      destruct (error_eq_dec a b); congruence end.
Qed.

Lemma Is_wrapped (p : string) (e : error) : errors.Is (Errorf p e) e = true.
Proof.
  cbn [errors.Is].
  destruct (error_eq_dec (Errorf p e) e); [reflexivity | apply Is_refl].
Qed.

Lemma lock_document_key (m : MongoStorage) (key : string) (now : time.Time) :
  mongo.ld_key (lock_document m key now) = key.
Proof. reflexivity. Qed.

(** Whatever the instant of the insert that succeeds, the document it
    writes is the one built when [Lock] was entered. *)
Lemma Lock_inserts_entry_document (m : MongoStorage) (ctx : context.Context)
    (key : string) (w : World) (t0 : time.Time) (fuel : nat) (r : LockResult) :
  Lock m ctx key w t0 fuel = Some r ->
  lr_err r = None ->
  mongo.locks (lr_db r)
  = (mongo.locks (db_at w (lr_at r)) ++ [lock_document m key t0])%list /\
  mongo.ld_expires_at (lock_document m key t0)
  = mongo.DateTime (t0 + LockTTL m) /\
  t0 <= lr_at r.
Proof.
  intros H He.
  destruct (Lock_loop_success ctx key _ (lock_document_key m key t0) w fuel t0 r H He)
    as [H1 [_ H3]].
  rewrite H1. repeat split; trivial.
Qed.

Lemma polls_until (D : time.Time) (k : nat) :
  forall t : time.Time,
    D - t <= 2 * time.Second * Z.of_nat k ->
    exists n : nat,
      (n <= k)%nat /\ D <= pass_time t n /\
      forall i, (i < n)%nat -> pass_time t i < D.
Proof.
  induction k as [|k IH]; intros t H.
  - exists 0%nat. rewrite pass_time_0.
    split; [lia|]. split; [lia|]. intros i Hi; lia.
  - destruct (Z_le_gt_dec D t) as [Hle|Hgt].
    + exists 0%nat. rewrite pass_time_0.
      split; [lia|]. split; [lia|]. intros i Hi; lia.
    + destruct (IH (t + 2 * time.Second)) as [n [Hn [Hd Hi]]]; [lia|].
      exists (S n). rewrite <- pass_time_succ.
      split; [lia|]. split; [exact Hd|].
      intros [|i] Hlt.
      * rewrite pass_time_0. lia.
      * rewrite <- pass_time_succ. apply Hi. lia.
Qed.

Lemma polls_times (P : time.Time -> Prop) (k : string) (n : nat) :
  forall t : time.Time,
    (forall i, (i < n)%nat -> P (pass_time t i)) ->
    Forall (fun ev => P (event_time ev)) (polls k t n).
Proof.
  induction n as [|n IH]; intros t H; simpl; [constructor|].
  assert (H0 : P t) by (rewrite <- (pass_time_0 t); apply H; lia).
  constructor; [exact H0|]. constructor; [exact H0|].
  apply IH. intros i Hi. rewrite pass_time_succ. apply H. lia.
Qed.

(** C4.  On a key that stays taken, a [Lock] entered at [t0] with a context
    that ends at [D] looks at the context at the head of every pass: each
    insert and each sleep starts at an instant the context has not ended,
    and the pass that finds it ended returns the timeout error wrapping
    [ctx.Err()].  That pass comes less than one sleep (2 s) after the later
    of [t0] and [D]; the database is left as the others made it. *)
Theorem Lock_cancelled_in_bounded_time :
  forall (m : MongoStorage) (ctx : context.Context) (key : string) (w : World)
         (t0 D : time.Time),
    context.done_at ctx = Some D ->
    (forall t, t0 <= t -> t < D -> held_at w key t) ->
    exists (n : nat) (r : LockResult),
      (forall fuel, (n < fuel)%nat -> Lock m ctx key w t0 fuel = Some r) /\
      lr_err r = Some (timeout_error ctx key) /\
      errors.Is (timeout_error ctx key) (context.Err ctx) = true /\
      lr_at r = pass_time t0 n /\
      Z.max t0 D <= lr_at r < Z.max t0 D + 2 * time.Second /\
      lr_trace r = polls key t0 n /\
      Forall (fun ev => context.Done ctx (event_time ev) = false) (lr_trace r) /\
      lr_db r = db_at w (lr_at r).
Proof.
  intros m ctx key w t0 D HD Hheld.
  assert (Hdone : forall t, context.Done ctx t = (D <=? t))
    by (intros t; unfold context.Done; now rewrite HD).
  destruct (polls_until D (Z.to_nat (Z.max 0 (D - t0))) t0) as [n [_ [Hn Hi]]].
  { unfold time.Second. lia. }
  assert (Ht0 : forall i, t0 <= pass_time t0 i)
    by (intros i; unfold pass_time, time.Second; lia).
  exists n,
    (mkLockResult (Some (timeout_error ctx key)) (pass_time t0 n)
       (db_at w (pass_time t0 n)) (polls key t0 n)).
  split.
  - intros fuel Hfuel.
    replace fuel with (n + S (fuel - S n))%nat by lia.
    unfold Lock.
    rewrite (Lock_loop_polls ctx key _ (lock_document_key m key t0)).
    + cbn [Lock_loop].
      rewrite iteration_done by (rewrite Hdone; now apply Z.leb_le).
      cbn [lr_err lr_at lr_db lr_trace]. now rewrite app_nil_r.
    + intros i Hlt. specialize (Hi i Hlt). split.
      * rewrite Hdone. apply Z.leb_gt. exact Hi.
      * apply Hheld; [apply Ht0 | exact Hi].
  - cbn [lr_err lr_at lr_db lr_trace].
    split; [reflexivity|].
    split.
    { apply Is_wrapped. }
    split; [reflexivity|].
    split.
    { destruct n as [|n'].
      - rewrite pass_time_0 in *. unfold time.Second. lia.
      - specialize (Hi n' ltac:(lia)). specialize (Ht0 (S n')).
        unfold pass_time in *. unfold time.Second in *. lia. }
    split; [reflexivity|].
    split; [|reflexivity].
    apply (polls_times (fun t => context.Done ctx t = false)).
    intros i Hlt. rewrite Hdone. apply Z.leb_gt. now apply Hi.
Qed.

(** C5.  When, after any number of passes that found the key taken, the
    insert fails with an error that is not a duplicate key error, [Lock]
    returns at that very instant with that error wrapped in the text that
    names the operation and the key: the insert is the last call of the
    log (no sleep, no further insert) and the database is untouched. *)
Theorem Lock_fails_fast_on_medium_error :
  forall (m : MongoStorage) (ctx : context.Context) (key : string) (w : World)
         (t0 : time.Time) (n : nat) (e : error),
    (forall i, (i < n)%nat ->
               context.Done ctx (pass_time t0 i) = false /\
               held_at w key (pass_time t0 i)) ->
    context.Done ctx (pass_time t0 n) = false ->
    fault_at w (pass_time t0 n) = Some e ->
    mongo.IsDuplicateKeyError e = false ->
    forall fuel, (n < fuel)%nat ->
      Lock m ctx key w t0 fuel
      = Some (mkLockResult (Some (acquire_error key e)) (pass_time t0 n)
                (db_at w (pass_time t0 n))
                (polls key t0 n ++ [Insert (pass_time t0 n) (Some e)])%list) /\
      errors.Error (acquire_error key e)
      = ("error trying to acquire lock for key " ++ key ++ ": ") ++ errors.Error e /\
      errors.Is (acquire_error key e) e = true.
Proof.
  intros m ctx key w t0 n e Hheld Hd Hf He fuel Hfuel.
  split.
  - replace fuel with (n + S (fuel - S n))%nat by lia.
    unfold Lock.
    rewrite (Lock_loop_polls ctx key _ (lock_document_key m key t0) w n _ _ Hheld).
    cbn [Lock_loop]. rewrite Hf.
    rewrite (iteration_fault ctx key _ e _ _ Hd He). reflexivity.
  - split.
    + reflexivity.
    + apply Is_wrapped.
Qed.

(** C3.  The code at an input the claim fails on.  Host "host-a" enters
    Lock("cert-x") at instant 0 while "host-b" holds the lock and releases
    it after 100 s.  The insert of the 51st pass, at 100 s, succeeds and
    writes [expires_at] = 60 s, the value computed before the loop, not
    100 s + 60 s: the lease is expired when it is written, and the next
    sweep of the TTL monitor removes it. *)
Theorem Lock_writes_expiry_of_entry :
  let w := held_until "cert-x" "host-b" (100 * time.Second) in
  let lease := mongo.mkLockDoc "cert-x" "host-a" (60 * time.Second) in
  Lock (storage_of "host-a") context.Background "cert-x" w 0 60
  = Some (mkLockResult None (100 * time.Second)
            (mongo.mkDatabase [] [lease] true true)
            (polls "cert-x" 0 50 ++ [Insert (100 * time.Second) None])%list) /\
  mongo.DateTime (time.Add (100 * time.Second) (LockTTL (storage_of "host-a")))
  = 160 * time.Second /\
  mongo.ld_expires_at lease <> 160 * time.Second /\
  mongo.expired (100 * time.Second) lease = true /\
  mongo.locks (mongo.ttl_sweep (100 * time.Second)
                 (mongo.mkDatabase [] [lease] true true)) = [].
Proof.
  cbv zeta. split; [vm_compute; reflexivity|].
  split; [vm_compute; reflexivity|].
  split; [vm_compute; discriminate|].
  split; vm_compute; reflexivity.
Qed.

(* ================================================================= *)
(** ** Unlock and the holder identity *)

Lemma remove_first_In {A : Type} (f : A -> bool) (c : list A) (d : A) :
  In d (fst (mongo.remove_first f c)) -> In d c.
Proof.
  induction c as [|x c IH]; simpl; [tauto|].
  destruct (f x); simpl; [tauto|].
  destruct (mongo.remove_first f c) as [r n]; simpl in *.
  intros [H|H]; [now left | right; now apply IH].
Qed.

Lemma remove_first_keeps {A : Type} (f : A -> bool) (c : list A) (d : A) :
  In d c -> f d = false -> In d (fst (mongo.remove_first f c)).
Proof.
  intros Hin Hf.
  induction c as [|x c IH]; simpl in *; [tauto|].
  destruct (f x) eqn:Hx; simpl.
  - destruct Hin as [->|Hin]; [congruence | exact Hin].
  - destruct (mongo.remove_first f c) as [r n]; simpl in *.
    destruct Hin as [->|Hin]; [now left | right; now apply IH].
Qed.

Lemma remove_first_length {A : Type} (f : A -> bool) (c : list A) :
  (List.length c <= S (List.length (fst (mongo.remove_first f c))))%nat.
Proof.
  induction c as [|x c IH]; simpl; [lia|].
  destruct (f x); simpl; [lia|].
  destruct (mongo.remove_first f c) as [r n]; simpl in *. lia.
Qed.

Lemma with_locks_id (db : mongo.Database) :
  mongo.with_locks db (mongo.locks db) = db.
Proof. now destruct db. Qed.

Lemma lock_filter_false (k i : string) (d : mongo.LockDoc) :
  mongo.ld_key d <> k \/ mongo.ld_instance d <> i ->
  mongo.lock_filter k i d = false.
Proof.
  unfold mongo.lock_filter. intros [H|H]; apply String.eqb_neq in H; rewrite H;
    [reflexivity | apply andb_false_r].
Qed.

Lemma Unlock_no_fault (m : MongoStorage) (k : string) (db : mongo.Database) :
  Unlock m None k db
  = (mongo.with_locks db
       (fst (mongo.remove_first (mongo.lock_filter k (InstanceID m))
               (mongo.locks db))), None).
Proof.
  unfold Unlock, mongo.DeleteOne_locks.
  now destruct (mongo.remove_first (mongo.lock_filter k (InstanceID m))
                  (mongo.locks db)).
Qed.

(** C2, as the code has it.  Unlock(K) removes at most one lock document,
    one that matches both K and the caller's InstanceID: every document
    with another key or another holder stays, and nothing is added.  When
    no document matches, Unlock returns nil and leaves the database as it
    was; the only error it returns is the fault of the delete call itself,
    wrapped in the text that names the key. *)
Theorem Unlock_scoped_by_holder :
  forall (m : MongoStorage) (K : string) (fault : option error)
         (db : mongo.Database),
    let db' := fst (Unlock m fault K db) in
    (forall d, In d (mongo.locks db) ->
               mongo.ld_key d <> K \/ mongo.ld_instance d <> InstanceID m ->
               In d (mongo.locks db')) /\
    (forall d, In d (mongo.locks db') -> In d (mongo.locks db)) /\
    (List.length (mongo.locks db) <= S (List.length (mongo.locks db')))%nat /\
    List.length (filter (mongo.lock_filter K (InstanceID m)) (mongo.locks db'))
    = match fault with
      | None => Nat.pred (List.length (filter (mongo.lock_filter K (InstanceID m))
                                         (mongo.locks db)))
      | Some _ => List.length (filter (mongo.lock_filter K (InstanceID m))
                                 (mongo.locks db))
      end /\
    mongo.storage db' = mongo.storage db /\
    (find (mongo.lock_filter K (InstanceID m)) (mongo.locks db) = None ->
     Unlock m None K db = (db, None)) /\
    snd (Unlock m fault K db) = option_map (release_error K) fault /\
    (forall e, Unlock m (Some e) K db = (db, Some (release_error K e))).
Proof.
  intros m K fault db db'. subst db'.
  destruct fault as [e|].
  - cbn. repeat split; auto.
    intros H. rewrite Unlock_no_fault, (remove_first_absent _ _ H).
    simpl. now rewrite with_locks_id.
  - rewrite Unlock_no_fault. cbn [fst snd mongo.locks mongo.with_locks
                                   mongo.storage option_map].
    split.
    { intros d Hin Hne. apply remove_first_keeps; [exact Hin|].
      now apply lock_filter_false. }
    split; [intros d; apply remove_first_In|].
    split; [apply remove_first_length|].
    split; [apply remove_first_count|].
    split; [reflexivity|].
    split; [|split; reflexivity].
    intros H. rewrite (remove_first_absent _ _ H). simpl.
    now rewrite with_locks_id.
Qed.

(** C2, as the claim has it, fails: "host-a" unlocks "cert-x" while the
    only lock document belongs to "host-b"; nothing matches, and Unlock
    returns nil, not an error. *)
Lemma Unlock_without_match_returns_nil :
  let db := mongo.mkDatabase []
              [mongo.mkLockDoc "cert-x" "host-b" (60 * time.Second)] true true in
  find (mongo.lock_filter "cert-x" (InstanceID (storage_of "host-a")))
       (mongo.locks db) = None /\
  ~ (exists e, snd (Unlock (storage_of "host-a") None "cert-x" db) = Some e) /\
  Unlock (storage_of "host-a") None "cert-x" db = (db, None).
Proof.
  cbv zeta. split; [reflexivity|]. split; [|reflexivity].
  intros [e H]. vm_compute in H. discriminate.
Qed.

Lemma has_key_find (k i : string) (c : list mongo.LockDoc) :
  mongo.has_key k c = false -> find (mongo.lock_filter k i) c = None.
Proof.
  induction c as [|x c IH]; simpl; [reflexivity|].
  intros H. apply orb_false_elim in H as [Hx Hc].
  unfold mongo.lock_filter at 1. rewrite Hx. simpl. now apply IH.
Qed.

Lemma remove_first_last {A : Type} (f : A -> bool) (c : list A) (d : A) :
  find f c = None -> f d = true ->
  mongo.remove_first f (c ++ [d])%list = (c, 1).
Proof.
  intros Hc Hd.
  induction c as [|x c IH]; simpl in *.
  - now rewrite Hd.
  - destruct (f x); [discriminate|].
    now rewrite (IH Hc).
Qed.

Lemma has_key_app (k : string) (c : list mongo.LockDoc) (d : mongo.LockDoc) :
  mongo.has_key k (c ++ [d])%list
  = mongo.has_key k c || String.eqb (mongo.ld_key d) k.
Proof.
  unfold mongo.has_key. rewrite existsb_app. simpl. now rewrite orb_false_r.
Qed.

Lemma NewMongoStorage_ok (index_fault : option error) (kernel : option string)
    (db db' : mongo.Database) (m : MongoStorage) (err : option error) :
  NewMongoStorage index_fault kernel db = (db', (Some m, err)) ->
  m = storage_of (fst (os.Hostname kernel)) /\
  mongo.locks_unique_key db' = true /\ mongo.locks_ttl db' = true /\
  mongo.locks db' = mongo.locks db /\
  mongo.unique_keys (mongo.locks db') = true.
Proof.
  unfold NewMongoStorage, mongo.CreateMany_locks.
  destruct index_fault as [e|]; [discriminate|].
  destruct (mongo.unique_keys (mongo.locks db)) eqn:Hu; [|discriminate].
  destruct kernel as [h|]; simpl; intros H; injection H as <- <- <-; auto.
Qed.


(* ================================================================= *)
(** ** List *)

Lemma is_meta_dot (c : ascii) :
  mongo.is_meta c = false -> Ascii.eqb c "." = false.
Proof.
  unfold mongo.is_meta, mongo.metachars. cbn [list_ascii_of_string existsb].
  intros H.
  repeat (apply orb_false_elim in H; destruct H as [?H H]); assumption.
Qed.

Lemma atoms_literal (p : string) :
  literal p = true ->
  mongo.atoms p = Some (map mongo.Lit (list_ascii_of_string p)).
Proof.
  unfold literal.
  induction p as [|c p IH]; cbn [list_ascii_of_string forallb mongo.atoms map];
    [reflexivity|].
  intros H. apply andb_true_iff in H as [Hc Hp].
  apply negb_true_iff in Hc.
  rewrite (is_meta_dot c Hc), Hc, (IH Hp). reflexivity.
Qed.

Lemma match_here_literal (p : string) :
  forall s : string,
    mongo.match_here (map mongo.Lit (list_ascii_of_string p)) s
    = Some (String.prefix p s).
Proof.
  induction p as [|c p IH]; intros s;
    cbn [list_ascii_of_string map mongo.match_here String.prefix];
    [now destruct s|].
  destruct s as [|x s]; [reflexivity|].
  cbn [String.prefix].
  destruct (ascii_dec c x) as [->|Hne].
  - rewrite Ascii.eqb_refl. apply IH.
  - apply Ascii.eqb_neq in Hne. now rewrite Hne.
Qed.

Lemma find_regex_literal (p : string) (c : list mongo.StorageDoc) :
  literal p = true ->
  mongo.find_regex ("^" ++ p) c
  = Some (filter (fun d => String.prefix p (mongo.sd_key d)) c).
Proof.
  intros Hp.
  induction c as [|d c IH]; cbn [mongo.find_regex filter]; [reflexivity|].
  rewrite IH.
  cbn [append mongo.regex_match]. rewrite Ascii.eqb_refl.
  rewrite (atoms_literal p Hp), match_here_literal. reflexivity.
Qed.

(** For a prefix of ordinary characters List returns, in the order of the
    collection, exactly the keys that start with it, whatever the
    [recursive] flag. *)
Lemma List_literal_prefix (m : MongoStorage) (p : string) (recursive : bool)
    (db : mongo.Database) :
  literal p = true ->
  List m None None p recursive db
  = Some (filter (String.prefix p) (map mongo.sd_key (mongo.storage db)), None).
Proof.
  intros Hp. unfold List, mongo.Find.
  rewrite (find_regex_literal p _ Hp). cbn [mongo.yields mongo.cursor_err].
  do 2 f_equal.
  induction (mongo.storage db) as [|d c IH]; cbn [filter map]; [reflexivity|].
  destruct (String.prefix p (mongo.sd_key d)); cbn [map]; now rewrite IH.
Qed.

(** The [recursive] flag is not looked at. *)
Lemma List_ignores_recursive (m : MongoStorage) (fault : option error)
    (cursor_fault : option (nat * error)) (p : string) (db : mongo.Database) :
  List m fault cursor_fault p true db = List m fault cursor_fault p false db.
Proof. reflexivity. Qed.

(** C9.  The code at an input the claim fails on.  With the keys "a.b/1",
    "axb/1" and "b/1" stored, List("a.b") returns "a.b/1" and also
    "axb/1", which does not start with "a.b": the prefix goes into the
    pattern as it is, and its dot matches any character.  The claim's own
    example, List("a") on {"a/1", "a/2", "b/1"}, returns {"a/1", "a/2"}. *)
Theorem List_prefix_is_a_pattern :
  let db := mongo.mkDatabase [record "a.b/1"; record "axb/1"; record "b/1"]
              [] true true in
  List (storage_of "host-a") None None "a.b" false db
  = Some (["a.b/1"; "axb/1"], None) /\
  List (storage_of "host-a") None None "a.b" true db
  = Some (["a.b/1"; "axb/1"], None) /\
  String.prefix "a.b" "axb/1" = false /\
  filter (String.prefix "a.b") (map mongo.sd_key (mongo.storage db))
  = ["a.b/1"] /\
  List (storage_of "host-a") None None "a" false
    (mongo.mkDatabase [record "a/1"; record "a/2"; record "b/1"] [] true true)
  = Some (["a/1"; "a/2"], None).
Proof.
  cbv zeta. repeat split; vm_compute; reflexivity.
Qed.

(* ================================================================= *)
(** ** Mutual exclusion *)

Section MutualExclusion.

Import mongo.

Lemma has_key_remove_first (f : LockDoc -> bool) (k : string) (c : list LockDoc) :
  has_key k c = false -> has_key k (fst (remove_first f c)) = false.
Proof.
  induction c as [|x c IH]; simpl; [trivial|].
  intros H. apply orb_false_elim in H as [Hx Hc].
  destruct (f x); simpl; [exact Hc|].
  destruct (remove_first f c) as [r n]; simpl in *.
  now rewrite Hx, (IH Hc).
Qed.

Lemma has_key_filter (f : LockDoc -> bool) (k : string) (c : list LockDoc) :
  has_key k c = false -> has_key k (filter f c) = false.
Proof.
  induction c as [|x c IH]; simpl; [trivial|].
  intros H. apply orb_false_elim in H as [Hx Hc].
  destruct (f x); simpl; [now rewrite Hx, (IH Hc) | now apply IH].
Qed.

Lemma unique_keys_remove_first (f : LockDoc -> bool) (c : list LockDoc) :
  unique_keys c = true -> unique_keys (fst (remove_first f c)) = true.
Proof.
  induction c as [|x c IH]; simpl; [trivial|].
  intros H. apply andb_true_iff in H as [Hx Hc].
  destruct (f x); simpl; [exact Hc|].
  pose proof (has_key_remove_first f (ld_key x) c) as Hk.
  destruct (remove_first f c) as [r n]; simpl in *.
  apply negb_true_iff in Hx. now rewrite (Hk Hx), (IH Hc).
Qed.

Lemma unique_keys_filter (f : LockDoc -> bool) (c : list LockDoc) :
  unique_keys c = true -> unique_keys (filter f c) = true.
Proof.
  induction c as [|x c IH]; simpl; [trivial|].
  intros H. apply andb_true_iff in H as [Hx Hc].
  destruct (f x); simpl; [|now apply IH].
  apply negb_true_iff in Hx.
  now rewrite (has_key_filter f _ _ Hx), (IH Hc).
Qed.

Lemma unique_keys_app (c : list LockDoc) (d : LockDoc) :
  unique_keys c = true -> has_key (ld_key d) c = false ->
  unique_keys (c ++ [d]) = true.
Proof.
  induction c as [|x c IH]; simpl; [trivial|].
  intros H Hd. apply andb_true_iff in H as [Hx Hc].
  apply orb_false_elim in Hd as [Hxd Hcd].
  apply negb_true_iff in Hx.
  rewrite has_key_app, Hx, (IH Hc Hcd), String.eqb_sym, Hxd. reflexivity.
Qed.

Lemma has_key_count_0 (k : string) (c : list LockDoc) :
  has_key k c = false ->
  filter (fun d => String.eqb (ld_key d) k) c = [].
Proof.
  induction c as [|x c IH]; simpl; [trivial|].
  intros H. apply orb_false_elim in H as [Hx Hc].
  now rewrite Hx, (IH Hc).
Qed.

Lemma unique_keys_count (k : string) (c : list LockDoc) :
  unique_keys c = true ->
  (List.length (filter (fun d => String.eqb (ld_key d) k) c) <= 1)%nat.
Proof.
  induction c as [|x c IH]; simpl; [lia|].
  intros H. apply andb_true_iff in H as [Hx Hc].
  destruct (String.eqb (ld_key x) k) eqn:Hk; [|now apply IH].
  apply String.eqb_eq in Hk. subst k.
  apply negb_true_iff in Hx.
  rewrite (has_key_count_0 _ _ Hx). simpl. lia.
Qed.

Lemma has_key_count_pos (k : string) (c : list LockDoc) :
  has_key k c = true ->
  (0 < List.length (filter (fun d => String.eqb (ld_key d) k) c))%nat.
Proof.
  induction c as [|x c IH]; simpl; [discriminate|].
  destruct (String.eqb (ld_key x) k); simpl; [lia | exact IH].
Qed.

Lemma settle_Holding (db : Database) (pcs : nat -> pc) (i : nat) (k : string) :
  settle db pcs i = Holding k ->
  pcs i = Holding k /\ has_key k (locks db) = true.
Proof.
  unfold settle. destruct (pcs i) as [| | k' | k']; try discriminate.
  destruct (has_key k' (locks db)) eqn:Hk; [|discriminate].
  intros H; injection H as <-. auto.
Qed.

Lemma settle_Running (db : Database) (pcs : nat -> pc) (i : nat)
    (ctx : context.Context) (k : string) (l : LockDoc) :
  settle db pcs i = Running ctx k l -> pcs i = Running ctx k l.
Proof.
  unfold settle. destruct (pcs i) as [| | k' | k']; trivial.
  destruct (has_key k' (locks db)); discriminate.
Qed.

Lemma set_pc_same (pcs : nat -> pc) (i : nat) (p : pc) : set_pc pcs i p i = p.
Proof. unfold set_pc. now rewrite Nat.eqb_refl. Qed.

Lemma set_pc_other (pcs : nat -> pc) (i j : nat) (p : pc) :
  j <> i -> set_pc pcs i p j = pcs j.
Proof. unfold set_pc. intros H. apply Nat.eqb_neq in H. now rewrite H. Qed.

(** The callers change, the database does not. *)
Lemma invariant_callers (s : System) (now : time.Time) (pcs : nat -> pc) :
  invariant s ->
  (forall j k, pcs j = Holding k -> sys_pc s j = Holding k) ->
  (forall j c k l, pcs j = Running c k l -> ld_key l = k) ->
  invariant (mkSystem (sys_db s) now pcs).
Proof.
  intros (I1 & I2 & I3 & I4 & I5) HH HR.
  repeat split; simpl; trivial.
  - intros i k H. eapply I3, HH, H.
  - intros i j k Hi Hj. eapply I4; apply HH; eassumption.
Qed.

(** Lock documents leave the collection and the holders are settled. *)
Lemma invariant_shrink (s : System) (db : Database) (now : time.Time)
    (pcs : nat -> pc) :
  invariant s ->
  locks_unique_key db = true ->
  unique_keys (locks db) = true ->
  (forall j k, pcs j = Holding k -> sys_pc s j = Holding k) ->
  (forall j c k l, pcs j = Running c k l -> ld_key l = k) ->
  invariant (mkSystem db now (settle db pcs)).
Proof.
  intros (I1 & I2 & I3 & I4 & I5) H1 H2 HH HR.
  repeat split; simpl; trivial.
  - intros i k H. now apply settle_Holding in H.
  - intros i j k Hi Hj.
    apply settle_Holding in Hi as [Hi _]. apply settle_Holding in Hj as [Hj _].
    eapply I4; apply HH; eassumption.
  - intros i c k l H. apply settle_Running in H. eapply HR, H.
Qed.

Variable ms : nat -> MongoStorage.

Lemma step_invariant (a : action) (s s' : System) :
  invariant s -> step ms a s = Some s' -> invariant s'.
Proof.
  intros Inv. pose proof Inv as (I1 & I2 & I3 & I4 & I5).
  destruct a as [d | | i ctx key | i fault | i key fault]; cbn [step].
  - (* Tick *)
    destruct (0 <=? d); [|discriminate].
    intros H; injection H as <-.
    apply invariant_callers; [exact Inv | auto | exact I5].
  - (* Sweep *)
    intros H; injection H as <-.
    apply (invariant_shrink s); trivial.
    + unfold ttl_sweep. now destruct (locks_ttl (sys_db s)).
    + unfold ttl_sweep. destruct (locks_ttl (sys_db s)); [|exact I2].
      now apply unique_keys_filter.
  - (* CallLock *)
    destruct (sys_pc s i) eqn:Hi; try discriminate.
    intros H; injection H as <-.
    apply invariant_callers; [exact Inv | |].
    + intros j k. destruct (Nat.eq_dec j i) as [->|Hne].
      * rewrite set_pc_same. discriminate.
      * now rewrite set_pc_other.
    + intros j c k l. destruct (Nat.eq_dec j i) as [->|Hne].
      * rewrite set_pc_same. intros H; injection H as _ <- <-. reflexivity.
      * rewrite set_pc_other by assumption. apply I5.
  - (* Iterate *)
    destruct (sys_pc s i) as [|ctx key lock| |] eqn:Hi; try discriminate.
    assert (Hkey : ld_key lock = key) by (eapply I5, Hi).
    assert (Hquiet : forall p now,
               (forall k, p <> Holding k) ->
               (p = Idle \/ p = Running ctx key lock) ->
               invariant (mkSystem (sys_db s) now (set_pc (sys_pc s) i p))).
    { intros p now HnH Hp. apply invariant_callers; [exact Inv | |].
      - intros j k. destruct (Nat.eq_dec j i) as [->|Hne].
        + rewrite set_pc_same. intros ->. now destruct (HnH k).
        + now rewrite set_pc_other.
      - intros j c k l. destruct (Nat.eq_dec j i) as [->|Hne].
        + rewrite set_pc_same. destruct Hp as [->| ->]; [discriminate|].
          intros H; injection H as _ <- <-. exact Hkey.
        + rewrite set_pc_other by assumption. apply I5. }
    unfold Lock_iteration, InsertOne_locks.
    destruct (context.Done ctx (sys_now s)).
    { intros H; injection H as <-. apply Hquiet; [discriminate | now left]. }
    destruct fault as [e|].
    { destruct (IsDuplicateKeyError e); intros H; injection H as <-;
        apply Hquiet; (discriminate || auto). }
    rewrite Hkey, I1. cbn [andb].
    destruct (has_key key (locks (sys_db s))) eqn:Hk.
    { cbn [E11000 IsDuplicateKeyError]. intros H; injection H as <-.
      apply Hquiet; [discriminate | now right]. }
    intros H; injection H as <-.
    repeat split; cbn [sys_db sys_pc sys_now locks with_locks locks_unique_key];
      trivial.
    + apply unique_keys_app; [exact I2 | now rewrite Hkey].
    + intros j k. rewrite has_key_app.
      destruct (Nat.eq_dec j i) as [->|Hne].
      * rewrite set_pc_same. intros H; injection H as <-.
        rewrite Hkey, String.eqb_refl. apply orb_true_r.
      * rewrite set_pc_other by assumption. intros H.
        now rewrite (I3 j k H).
    + intros a b k.
      destruct (Nat.eq_dec a i) as [->|Ha]; destruct (Nat.eq_dec b i) as [->|Hb];
        trivial; rewrite ?set_pc_same, ?set_pc_other by assumption.
      * intros H Hb'; injection H as <-. apply I3 in Hb'. congruence.
      * intros Ha' H; injection H as <-. apply I3 in Ha'. congruence.
      * apply I4.
    + intros j c k l. destruct (Nat.eq_dec j i) as [->|Hne].
      * rewrite set_pc_same. discriminate.
      * rewrite set_pc_other by assumption. apply I5.
  - (* CallUnlock *)
    assert (Hgo : forall p,
               sys_pc s i = p -> (forall c k l, p <> Running c k l) ->
               (let '(db', err) := Unlock (ms i) fault key (sys_db s) in
                let p' := match err, p with
                          | None, Holding k | None, Lost k =>
                              if String.eqb k key then Idle else p
                          | _, _ => p
                          end in
                Some (mkSystem db' (sys_now s)
                        (settle db' (set_pc (sys_pc s) i p')))) = Some s' ->
               invariant s').
    { intros p Hp HnR.
      destruct (Unlock (ms i) fault key (sys_db s)) as [db' err] eqn:HU.
      intros H; injection H as <-.
      assert (Hdb : locks_unique_key db' = true /\ unique_keys (locks db') = true).
      { destruct fault as [e|].
        - cbn in HU. injection HU as <- _. auto.
        - rewrite Unlock_no_fault in HU. injection HU as <- _. cbn.
          split; [exact I1 | now apply unique_keys_remove_first]. }
      destruct Hdb as [Hd1 Hd2].
      apply (invariant_shrink s); trivial.
      - intros j k. destruct (Nat.eq_dec j i) as [->|Hne].
        + rewrite set_pc_same, Hp.
          destruct err; destruct p as [| |k'|k']; trivial;
            destruct (String.eqb k' key); trivial; discriminate.
        + now rewrite set_pc_other.
      - intros j c k l. destruct (Nat.eq_dec j i) as [->|Hne].
        + rewrite set_pc_same.
          destruct err; destruct p as [|c' k0 l0|k'|k'];
            try discriminate; try (now destruct (HnR c' k0 l0));
            destruct (String.eqb k' key); discriminate.
        + rewrite set_pc_other by assumption. apply I5. }
    destruct (sys_pc s i) as [|c k l|k|k] eqn:Hi; [| discriminate | |];
      intros H; eapply Hgo; try reflexivity; try exact H; discriminate.
Qed.

Lemma run_invariant (acts : list action) :
  forall s s' : System,
    invariant s -> run ms acts s = Some s' -> invariant s'.
Proof.
  induction acts as [|a acts IH]; intros s s' Inv; cbn [run].
  - intros H; injection H as <-. exact Inv.
  - destruct (step ms a s) as [s1|] eqn:Hs; [|discriminate].
    apply IH. eapply step_invariant; eassumption.
Qed.

End MutualExclusion.

Lemma all_idle_invariant (db : mongo.Database) (t0 : time.Time) :
  mongo.locks_unique_key db = true ->
  mongo.unique_keys (mongo.locks db) = true ->
  invariant (all_idle db t0).
Proof.
  intros H1 H2. unfold invariant, all_idle; simpl.
  repeat split; trivial; discriminate.
Qed.

(** C1.  Take any number of callers, each with its own storage, on a
    database on which NewMongoStorage has built the indexes, and any
    interleaving of their calls of Lock and Unlock, pass by pass, with the
    passing of time and the sweeps of the TTL monitor.  In every state
    reached, a key has at most one lock document and at most one caller
    holds it, a caller holding a key from the return of its Lock until its
    lease document leaves the collection, by a release or by expiry.  A
    caller inside Lock whose pass meets a document for its key
    gets the duplicate key error from the insert, changes nothing and stays
    in the loop; once the document is gone, released or expired, its pass
    inserts and it holds the lock. *)
Theorem mutual_exclusion :
  forall (ms : nat -> MongoStorage) (index_fault : option error)
         (kernel : option string) (db db0 : mongo.Database) (m : MongoStorage)
         (t0 : time.Time) (acts : list action) (s : System),
    NewMongoStorage index_fault kernel db = (db0, (Some m, None)) ->
    run ms acts (all_idle db0 t0) = Some s ->
    (forall K, (lock_count K (sys_db s) <= 1)%nat) /\
    (forall K i j, holds s i K -> holds s j K -> i = j) /\
    (forall K i, holds s i K -> lock_count K (sys_db s) = 1%nat) /\
    (forall j ctx K lock,
        sys_pc s j = Running ctx K lock ->
        context.Done ctx (sys_now s) = false ->
        if mongo.has_key K (mongo.locks (sys_db s))
        then
          Lock_iteration ctx K lock None (sys_now s) (sys_db s)
          = (sys_db s, Continue,
             [Insert (sys_now s) (Some (mongo.E11000 K));
              Sleep (sys_now s) (2 * time.Second)]) /\
          exists s',
            step ms (Iterate j None) s = Some s' /\
            sys_db s' = sys_db s /\
            forall i, sys_pc s' i = sys_pc s i
        else
          exists s',
            step ms (Iterate j None) s = Some s' /\
            holds s' j K /\ lock_count K (sys_db s') = 1%nat).
Proof.
  intros ms index_fault kernel db db0 m t0 acts s Hnew Hrun.
  destruct (NewMongoStorage_ok _ _ _ _ _ _ Hnew) as (_ & Hu & _ & _ & Hk).
  pose proof (run_invariant ms acts _ _ (all_idle_invariant db0 t0 Hu Hk) Hrun)
    as Inv.
  pose proof Inv as (I1 & I2 & I3 & I4 & I5).
  assert (Hcount : forall K, (lock_count K (sys_db s) <= 1)%nat)
    by (intros K; now apply unique_keys_count).
  split; [exact Hcount|].
  split; [intros K i j; apply I4|].
  split.
  { intros K i Hi. specialize (Hcount K).
    pose proof (has_key_count_pos K _ (I3 i K Hi)) as Hpos.
    unfold lock_count in *. lia. }
  intros j ctx K lock Hj Hd.
  pose proof (I5 _ _ _ _ Hj) as Hkey.
  destruct (mongo.has_key K (mongo.locks (sys_db s))) eqn:HK.
  - pose proof (iteration_held ctx K lock Hkey (sys_now s) (sys_db s) Hd I1 HK)
      as Hit.
    split; [exact Hit|].
    eexists. split; [cbn [step]; rewrite Hj, Hit; reflexivity|].
    split; [reflexivity|].
    intros i. cbn [sys_pc]. unfold set_pc.
    destruct (Nat.eqb_spec i j); congruence.
  - assert (Hfree : mongo.locks_unique_key (sys_db s)
                    && mongo.has_key K (mongo.locks (sys_db s)) = false)
      by (now rewrite HK, andb_false_r).
    pose proof (iteration_free ctx K lock Hkey (sys_now s) (sys_db s) Hd Hfree)
      as Hit.
    eexists. split; [cbn [step]; rewrite Hj, Hit; reflexivity|].
    split.
    + unfold holds. cbn [sys_pc]. apply set_pc_same.
    + unfold lock_count. cbn [sys_db mongo.locks mongo.with_locks].
      rewrite filter_app, length_app, (has_key_count_0 K _ HK).
      cbn [filter]. rewrite Hkey, String.eqb_refl. reflexivity.
Qed.

(* ================================================================= *)
(** ** The theorems at sample inputs *)

Lemma mutual_exclusion_witness :
  NewMongoStorage None (Some "host-a") mongo.empty
  = (fresh, (Some (storage_of "host-a"), None)) /\
  exists s : System,
    run two_hosts contention (all_idle fresh 0) = Some s /\
    holds s 1 "cert-x" /\
    (forall K, (lock_count K (sys_db s) <= 1)%nat) /\
    (forall K i j, holds s i K -> holds s j K -> i = j).
Proof.
  assert (Hnew : NewMongoStorage None (Some "host-a") mongo.empty
                 = (fresh, (Some (storage_of "host-a"), None))) by reflexivity.
  split; [exact Hnew|].
  destruct (run two_hosts contention (all_idle fresh 0)) as [s|] eqn:Hrun;
    [|vm_compute in Hrun; discriminate].
  exists s. split; [reflexivity|].
  split.
  - assert (Hpc : option_map (fun s => sys_pc s 1%nat)
                    (run two_hosts contention (all_idle fresh 0))
                  = Some (Holding "cert-x")) by (vm_compute; reflexivity).
    rewrite Hrun in Hpc. now injection Hpc.
  - pose proof (mutual_exclusion two_hosts None (Some "host-a") mongo.empty
                  fresh (storage_of "host-a") 0 contention s Hnew Hrun) as H.
    split; [exact (proj1 H) | exact (proj1 (proj2 H))].
Defined.

Lemma Unlock_scoped_by_holder_witness :
  let db := mongo.mkDatabase []
              [mongo.mkLockDoc "cert-x" "host-b" (60 * time.Second);
               mongo.mkLockDoc "cert-y" "host-a" (60 * time.Second)] true true in
  find (mongo.lock_filter "cert-x" (InstanceID (storage_of "host-a")))
       (mongo.locks db) = None /\
  Unlock (storage_of "host-a") None "cert-x" db = (db, None).
Proof.
  cbv zeta. split; [reflexivity|].
  apply (Unlock_scoped_by_holder (storage_of "host-a") "cert-x" None).
  reflexivity.
Defined.

Lemma Lock_cancelled_in_bounded_time_witness :
  let ctx := context.WithCancelAt (5 * time.Second) in
  let w := held_until "cert-x" "host-b" (100 * time.Second) in
  context.done_at ctx = Some (5 * time.Second) /\
  (forall t, 0 <= t -> t < 5 * time.Second -> held_at w "cert-x" t) /\
  exists (n : nat) (r : LockResult),
    (forall fuel, (n < fuel)%nat ->
                  Lock (storage_of "host-a") ctx "cert-x" w 0 fuel = Some r) /\
    lr_err r = Some (timeout_error ctx "cert-x") /\
    errors.Is (timeout_error ctx "cert-x") (context.Err ctx) = true /\
    lr_at r = pass_time 0 n /\
    Z.max 0 (5 * time.Second) <= lr_at r
      < Z.max 0 (5 * time.Second) + 2 * time.Second /\
    lr_trace r = polls "cert-x" 0 n /\
    Forall (fun ev => context.Done ctx (event_time ev) = false) (lr_trace r) /\
    lr_db r = db_at w (lr_at r).
Proof.
  cbv zeta.
  assert (Hheld : forall t, 0 <= t -> t < 5 * time.Second ->
                  held_at (held_until "cert-x" "host-b" (100 * time.Second))
                    "cert-x" t).
  { intros t H0 H5. unfold held_at, held_until. cbn [db_at fault_at].
    destruct (Z.ltb_spec t (100 * time.Second)) as [_|Hge].
    - repeat split; reflexivity.
    - unfold time.Second in *. lia. }
  split; [reflexivity|]. split; [exact Hheld|].
  apply (Lock_cancelled_in_bounded_time (storage_of "host-a")
           (context.WithCancelAt (5 * time.Second)) "cert-x"
           (held_until "cert-x" "host-b" (100 * time.Second)) 0
           (5 * time.Second)); [reflexivity | exact Hheld].
Defined.

Lemma Lock_fails_fast_on_medium_error_witness :
  let e := MediumError "server selection error: connection refused" in
  let w := outage_at "cert-x" "host-b" (2 * time.Second) e in
  (forall i, (i < 1)%nat ->
             context.Done context.Background (pass_time 0 i) = false /\
             held_at w "cert-x" (pass_time 0 i)) /\
  context.Done context.Background (pass_time 0 1) = false /\
  fault_at w (pass_time 0 1) = Some e /\
  mongo.IsDuplicateKeyError e = false /\
  Lock (storage_of "host-a") context.Background "cert-x" w 0 2
  = Some (mkLockResult (Some (acquire_error "cert-x" e)) (pass_time 0 1)
            (db_at w (pass_time 0 1))
            (polls "cert-x" 0 1 ++ [Insert (pass_time 0 1) (Some e)])%list).
Proof.
  cbv zeta.
  assert (Hheld : forall i, (i < 1)%nat ->
            context.Done context.Background (pass_time 0 i) = false /\
            held_at (outage_at "cert-x" "host-b" (2 * time.Second)
                       (MediumError "server selection error: connection refused"))
                    "cert-x" (pass_time 0 i)).
  { intros i Hi. assert (i = 0%nat) as -> by lia.
    split; [reflexivity|]. repeat split; reflexivity. }
  split; [exact Hheld|].
  split; [reflexivity|]. split; [reflexivity|]. split; [reflexivity|].
  apply (Lock_fails_fast_on_medium_error (storage_of "host-a")
           context.Background "cert-x" _ 0 1 _ Hheld eq_refl eq_refl eq_refl 2%nat).
  lia.
Defined.

Lemma Store_Load_round_trip_witness :
  let ws := [WStore "b/1" [x03] 7; WDelete "c/1"] in
  Forall (fun w => write_key w <> "a/1") ws /\
  Load (storage_of "host-a") None "a/1"
    (apply_writes (storage_of "host-a") ws
       (fst (Store (storage_of "host-a") None 5 "a/1" [x01; x02] mongo.empty)))
  = ([x01; x02], None) /\
  Load (storage_of "host-a") None "a/1"
    (apply_writes (storage_of "host-a") ws mongo.empty)
  = ([], Some (not_found "a/1")).
Proof.
  cbv zeta.
  assert (Hws : Forall (fun w => write_key w <> "a/1")
                  [WStore "b/1" [x03] 7; WDelete "c/1"])
    by (repeat constructor; discriminate).
  split; [exact Hws|].
  pose proof (Store_Load_round_trip (storage_of "host-a") "a/1" [x01; x02] 5
                mongo.empty _ Hws) as H.
  split; [exact (proj1 (proj2 H)) | exact (proj1 (proj2 (proj2 H)))].
Defined.

Lemma Delete_idempotent_witness :
  let db := mongo.mkDatabase [record "a/1"; record "b/1"] [] true true in
  (record_count "a/1" db <= 1)%nat /\
  Delete (storage_of "host-a") None "a/1"
    (fst (Delete (storage_of "host-a") None "a/1" db))
  = (fst (Delete (storage_of "host-a") None "a/1" db), None).
Proof.
  cbv zeta.
  assert (Hc : (record_count "a/1"
                  (mongo.mkDatabase [record "a/1"; record "b/1"] [] true true)
                <= 1)%nat) by (vm_compute; lia).
  split; [exact Hc|].
  apply (Delete_idempotent (storage_of "host-a") "a/1"). exact Hc.
Defined.


(* ================================================================= *)
(** ** More on the record store *)

Lemma DateTime_bounds (t : time.Time) :
  mongo.DateTime t <= t < mongo.DateTime t + time.Millisecond.
Proof.
  unfold mongo.DateTime, time.Millisecond.
  pose proof (Z.div_mod t 1000000 ltac:(lia)) as Hdm.
  pose proof (Z.mod_pos_bound t 1000000 ltac:(lia)) as Hb.
  lia.
Qed.

Lemma Stat_found (m : MongoStorage) (k : string) (d : mongo.StorageDoc)
    (db : mongo.Database) :
  find (mongo.key_is k) (mongo.storage db) = Some d ->
  Stat m None k db
  = (mkKeyInfo k (mongo.sd_ts d) (Z.of_nat (List.length (mongo.sd_value d))) true,
     None).
Proof. intros H. unfold Stat, mongo.FindOne. now rewrite H. Qed.

Lemma Stat_absent (m : MongoStorage) (k : string) (db : mongo.Database) :
  find (mongo.key_is k) (mongo.storage db) = None ->
  Stat m None k db
  = (mkKeyInfo "" 0 0 false,
     Some (Errorf ("MongoStorage.Stat key " ++ k ++ " not found: ") ErrNotExist)).
Proof. intros H. unfold Stat, mongo.FindOne. now rewrite H. Qed.

Lemma count_upsert_same (k : string) (d : mongo.StorageDoc)
    (c : list mongo.StorageDoc) :
  mongo.sd_key d = k ->
  List.length (filter (mongo.key_is k) (mongo.upsert k d c))
  = Nat.max 1 (List.length (filter (mongo.key_is k) c)).
Proof.
  intros Hd. apply key_is_true in Hd.
  induction c as [|x c IH]; simpl.
  - now rewrite Hd.
  - destruct (mongo.key_is k x) eqn:Hx; simpl.
    + rewrite Hd. simpl. lia.
    + rewrite Hx. exact IH.
Qed.

Lemma filter_upsert_other (k k' : string) (d : mongo.StorageDoc)
    (c : list mongo.StorageDoc) :
  k' <> k -> mongo.sd_key d = k' ->
  filter (mongo.key_is k) (mongo.upsert k' d c) = filter (mongo.key_is k) c.
Proof.
  intros Hne Hd.
  assert (Hdk : mongo.key_is k d = false) by (apply key_is_false; congruence).
  induction c as [|x c IH]; simpl.
  - now rewrite Hdk.
  - destruct (mongo.key_is k' x) eqn:Hx; simpl.
    + rewrite Hdk. apply key_is_true in Hx.
      assert (Hxk : mongo.key_is k x = false) by (apply key_is_false; congruence).
      now rewrite Hxk.
    + now rewrite IH.
Qed.

Lemma filter_remove_first_other (k k' : string) (c : list mongo.StorageDoc) :
  k' <> k ->
  filter (mongo.key_is k) (fst (mongo.remove_first (mongo.key_is k') c))
  = filter (mongo.key_is k) c.
Proof.
  intros Hne.
  induction c as [|x c IH]; simpl; [reflexivity|].
  destruct (mongo.key_is k' x) eqn:Hx; simpl.
  - apply key_is_true in Hx.
    assert (Hxk : mongo.key_is k x = false) by (apply key_is_false; congruence).
    now rewrite Hxk.
  - destruct (mongo.remove_first (mongo.key_is k') c) as [r n]; simpl in *.
    now rewrite IH.
Qed.

Lemma apply_write_filter_other (m : MongoStorage) (k : string) (w : write)
    (db : mongo.Database) :
  write_key w <> k ->
  filter (mongo.key_is k) (mongo.storage (apply_write m w db))
  = filter (mongo.key_is k) (mongo.storage db).
Proof.
  destruct w as [k' v now | k']; simpl; intros Hne.
  - now apply filter_upsert_other.
  - rewrite Delete_no_fault. simpl. now apply filter_remove_first_other.
Qed.

Lemma apply_write_count (m : MongoStorage) (k : string) (w : write)
    (db : mongo.Database) :
  (record_count k db <= 1)%nat -> (record_count k (apply_write m w db) <= 1)%nat.
Proof.
  intros H. unfold record_count in *.
  destruct (string_dec (write_key w) k) as [He|Hne].
  - destruct w as [k' v now | k']; simpl in He; subst k'; simpl.
    + rewrite count_upsert_same by reflexivity. lia.
    + rewrite Delete_no_fault. simpl. rewrite remove_first_count. lia.
  - now rewrite apply_write_filter_other.
Qed.

(** X1.  Stat after Store(K, V) at instant [now], with writes to other keys
    in between, reports the key, the size of V, a terminal key and as
    modification time the instant of the Store cut to the millisecond. *)
Theorem Stat_after_Store :
  forall (m : MongoStorage) (K : string) (V : list byte) (now : time.Time)
         (db : mongo.Database) (ws : list write),
    Forall (fun w => write_key w <> K) ws ->
    Stat m None K (apply_writes m ws (fst (Store m None now K V db)))
    = (mkKeyInfo K (mongo.DateTime now) (Z.of_nat (List.length V)) true, None) /\
    mongo.DateTime now <= now < mongo.DateTime now + time.Millisecond.
Proof.
  intros m K V now db ws Hws. split; [|apply DateTime_bounds].
  set (d := mongo.mkStorageDoc K V (mongo.DateTime now)).
  change (mongo.DateTime now) with (mongo.sd_ts d).
  change V with (mongo.sd_value d) at 2.
  apply Stat_found.
  rewrite (apply_writes_other m K ws _ Hws). simpl.
  now apply find_upsert_same.
Qed.

Lemma Stat_after_Store_witness :
  let ws := [WStore "b/1" [x03] 7; WDelete "c/1"] in
  Forall (fun w => write_key w <> "a/1") ws /\
  Stat (storage_of "host-a") None "a/1"
    (apply_writes (storage_of "host-a") ws
       (fst (Store (storage_of "host-a") None 5999999 "a/1" [x01; x02]
               mongo.empty)))
  = (mkKeyInfo "a/1" 5000000 2 true, None).
Proof.
  cbv zeta.
  assert (Hws : Forall (fun w => write_key w <> "a/1")
                  [WStore "b/1" [x03] 7; WDelete "c/1"])
    by (repeat constructor; discriminate).
  split; [exact Hws|].
  exact (proj1 (Stat_after_Store (storage_of "host-a") "a/1" [x01; x02] 5999999
                  mongo.empty _ Hws)).
Defined.

(** X2.  Stat of a key with no record returns the zero KeyInfo and an error
    that wraps [os.ErrNotExist]; on any other failure of the lookup it
    returns the error as it is, next to a KeyInfo that carries the key,
    size 0 and the terminal flag. *)
Theorem Stat_errors :
  forall (m : MongoStorage) (K : string) (db : mongo.Database),
    (find (mongo.key_is K) (mongo.storage db) = None ->
     exists e,
       Stat m None K db = (mkKeyInfo "" 0 0 false, Some e) /\
       errors.Is e ErrNotExist = true /\
       errors.Error e
       = ("MongoStorage.Stat key " ++ K ++ " not found: ") ++ "file does not exist") /\
    (forall e, e <> ErrNoDocuments ->
               Stat m (Some e) K db = (mkKeyInfo K 0 0 true, Some e)).
Proof.
  intros m K db. split.
  - intros H. eexists. split; [now apply Stat_absent|].
    split; [apply Is_wrapped | reflexivity].
  - intros e He. unfold Stat, mongo.FindOne.
    destruct e; try reflexivity. congruence.
Qed.

Lemma Stat_errors_witness :
  exists e,
    Stat (storage_of "host-a") None "a/1" mongo.empty
    = (mkKeyInfo "" 0 0 false, Some e) /\
    errors.Is e ErrNotExist = true /\
    errors.Error e
    = ("MongoStorage.Stat key " ++ "a/1" ++ " not found: ") ++ "file does not exist".
Proof.
  apply (Stat_errors (storage_of "host-a") "a/1" mongo.empty). reflexivity.
Defined.

(** X3.  On one database Exists, Load and Stat agree: Exists is true
    exactly when Load returns no error, Load and Stat fail together
    whatever the fault, and the size Stat reports is the length of what
    Load returns. *)
Theorem Exists_Load_Stat_agree :
  forall (m : MongoStorage) (K : string) (db : mongo.Database),
    (Exists m None K db = true <-> snd (Load m None K db) = None) /\
    (forall fault : option error,
        (snd (Load m fault K db) = None <-> snd (Stat m fault K db) = None) /\
        Size (fst (Stat m fault K db))
        = Z.of_nat (List.length (fst (Load m fault K db)))).
Proof.
  intros m K db. split.
  - unfold Exists, mongo.CountDocuments, Load, mongo.FindOne.
    rewrite Z.ltb_lt.
    destruct (find (mongo.key_is K) (mongo.storage db)) as [d|] eqn:Hf; simpl.
    + split; [reflexivity|]. intros _.
      destruct (filter (mongo.key_is K) (mongo.storage db)) eqn:Hfl; simpl; [|lia].
      apply find_filter_nil in Hfl. congruence.
    + apply find_filter_nil in Hf. rewrite Hf. simpl.
      split; [lia | discriminate].
  - intros [e|]; unfold Load, Stat, mongo.FindOne.
    + destruct e; simpl; split; try reflexivity; split; discriminate.
    + destruct (find (mongo.key_is K) (mongo.storage db)) as [d|]; simpl;
        split; try reflexivity; split; discriminate.
Qed.

(** X4.  Store never adds a second record for a key: it creates a record
    only where there was none and otherwise rewrites the first one, so the
    number of records of the key becomes the larger of 1 and what it was.
    Delete removes exactly one record when there is one. *)
Theorem write_record_count :
  forall (m : MongoStorage) (K : string) (V : list byte) (now : time.Time)
         (db : mongo.Database),
    record_count K (fst (Store m None now K V db))
    = Nat.max 1 (record_count K db) /\
    record_count K (fst (Delete m None K db)) = Nat.pred (record_count K db) /\
    List.length (mongo.storage (fst (Store m None now K V db)))
    = (List.length (mongo.storage db)
       + (if Exists m None K db then 0 else 1))%nat.
Proof.
  intros m K V now db. unfold record_count.
  split; [simpl; now apply count_upsert_same|].
  split; [rewrite Delete_no_fault; simpl; apply remove_first_count|].
  unfold Exists, mongo.CountDocuments. simpl.
  induction (mongo.storage db) as [|x c IH]; simpl; [reflexivity|].
  destruct (mongo.key_is K x) eqn:Hx; simpl.
  - destruct (filter (mongo.key_is K) c); simpl; lia.
  - rewrite IH. destruct (0 <? Z.of_nat (List.length (filter (mongo.key_is K) c)));
      lia.
Qed.

(** X5.  Stores and Deletes keep the storage collection at one record per
    key at most: a database that has the property keeps it through any
    sequence of writes, and so does every database written from the empty
    one. *)
Theorem writes_keep_one_record_per_key :
  forall (m : MongoStorage) (ws : list write) (db : mongo.Database),
    one_record_per_key db ->
    one_record_per_key (apply_writes m ws db) /\
    one_record_per_key (apply_writes m ws mongo.empty).
Proof.
  intros m ws.
  assert (H : forall db, one_record_per_key db ->
                         one_record_per_key (apply_writes m ws db)).
  { induction ws as [|w ws IH]; intros db Hdb; [exact Hdb|].
    change (apply_writes m (w :: ws) db)
      with (apply_writes m ws (apply_write m w db)).
    apply IH. intros k. apply apply_write_count, Hdb. }
  intros db Hdb. split; [now apply H|].
  apply H. intros k. unfold record_count. simpl. lia.
Qed.

Lemma writes_keep_one_record_per_key_witness :
  let ws := [WStore "a/1" [x01] 3; WStore "c/1" [] 4; WDelete "b/1";
             WStore "a/1" [x02] 5] in
  one_record_per_key mongo.empty /\
  one_record_per_key (apply_writes (storage_of "host-a") ws mongo.empty).
Proof.
  cbv zeta.
  assert (Hdb : one_record_per_key mongo.empty)
    by (intros k; unfold record_count; simpl; lia).
  split; [exact Hdb|].
  exact (proj1 (writes_keep_one_record_per_key (storage_of "host-a") _ _ Hdb)).
Defined.

(** X6.  A Store or a Delete touches the records of its own key only: the
    records of every other key, the lock collection and the indexes are
    what they were. *)
Theorem writes_touch_one_key :
  forall (m : MongoStorage) (w : write) (db : mongo.Database) (k : string),
    write_key w <> k ->
    filter (mongo.key_is k) (mongo.storage (apply_write m w db))
    = filter (mongo.key_is k) (mongo.storage db) /\
    Load m None k (apply_write m w db) = Load m None k db /\
    mongo.locks (apply_write m w db) = mongo.locks db /\
    mongo.locks_unique_key (apply_write m w db) = mongo.locks_unique_key db /\
    mongo.locks_ttl (apply_write m w db) = mongo.locks_ttl db.
Proof.
  intros m w db k Hne.
  split; [now apply apply_write_filter_other|].
  split.
  - unfold Load, mongo.FindOne. now rewrite (apply_write_other m k w db Hne).
  - destruct w as [k' v now | k']; simpl.
    + repeat split.
    + rewrite Delete_no_fault. repeat split.
Qed.

Lemma writes_touch_one_key_witness :
  let db := mongo.mkDatabase [mongo.mkStorageDoc "a/1" [x01] 0; record "b/1"]
              [mongo.mkLockDoc "a/1" "host-a" 9] true true in
  "b/1" <> "a/1" /\
  Load (storage_of "host-a") None "a/1"
    (apply_write (storage_of "host-a") (WDelete "b/1") db)
  = ([x01], None) /\
  mongo.locks (apply_write (storage_of "host-a") (WDelete "b/1") db)
  = [mongo.mkLockDoc "a/1" "host-a" 9].
Proof.
  cbv zeta.
  assert (Hne : write_key (WDelete "b/1") <> "a/1") by discriminate.
  split; [discriminate|].
  pose proof (writes_touch_one_key (storage_of "host-a") (WDelete "b/1")
                (mongo.mkDatabase [mongo.mkStorageDoc "a/1" [x01] 0; record "b/1"]
                   [mongo.mkLockDoc "a/1" "host-a" 9] true true)
                "a/1" Hne) as H.
  split; [exact (proj1 (proj2 H)) | exact (proj1 (proj2 (proj2 H)))].
Defined.

(** X7.  Where a key has at most one record, after Delete the key is
    gone for every reader: Load and Stat return their not-found errors and
    Exists returns false. *)
Theorem Delete_then_missing :
  forall (m : MongoStorage) (K : string) (db : mongo.Database),
    (record_count K db <= 1)%nat ->
    let db' := fst (Delete m None K db) in
    Load m None K db' = ([], Some (not_found K)) /\
    errors.Is (not_found K) ErrNotExist = true /\
    Exists m None K db' = false /\
    fst (Stat m None K db') = mkKeyInfo "" 0 0 false /\
    Delete m None K db' = (db', None).
Proof.
  intros m K db Hc db'. subst db'.
  assert (Hf : find (mongo.key_is K)
                 (mongo.storage (fst (Delete m None K db))) = None).
  { rewrite Delete_no_fault. simpl.
    apply find_filter_nil, length_zero_iff_nil.
    rewrite remove_first_count. unfold record_count in Hc. lia. }
  split; [now apply Load_absent|].
  split; [reflexivity|].
  split.
  - unfold Exists, mongo.CountDocuments.
    apply find_filter_nil in Hf. now rewrite Hf.
  - split; [now rewrite Stat_absent | now apply Delete_absent].
Qed.

Lemma Delete_then_missing_witness :
  let db := mongo.mkDatabase [record "a/1"; record "b/1"] [] true true in
  (record_count "a/1" db <= 1)%nat /\
  Load (storage_of "host-a") None "a/1"
    (fst (Delete (storage_of "host-a") None "a/1" db))
  = ([], Some (not_found "a/1")).
Proof.
  cbv zeta.
  assert (Hc : (record_count "a/1"
                  (mongo.mkDatabase [record "a/1"; record "b/1"] [] true true)
                <= 1)%nat) by (vm_compute; lia).
  split; [exact Hc|].
  exact (proj1 (Delete_then_missing (storage_of "host-a") "a/1" _ Hc)).
Defined.

(* ================================================================= *)
(** ** More on List *)

Lemma map_filter_keys (p : string) (c : list mongo.StorageDoc) :
  map mongo.sd_key (filter (fun d => String.prefix p (mongo.sd_key d)) c)
  = filter (String.prefix p) (map mongo.sd_key c).
Proof.
  induction c as [|d c IH]; cbn [filter map]; [reflexivity|].
  destruct (String.prefix p (mongo.sd_key d)); cbn [map]; now rewrite IH.
Qed.

Lemma In_keys_count (k : string) (c : list mongo.StorageDoc) :
  In k (map mongo.sd_key c)
  <-> (0 < List.length (filter (mongo.key_is k) c))%nat.
Proof.
  induction c as [|x c IH]; simpl; [lia|].
  destruct (mongo.key_is k x) eqn:Hx; simpl.
  - apply key_is_true in Hx. split; [lia | now left].
  - apply key_is_false in Hx. rewrite <- IH. tauto.
Qed.

Lemma NoDup_keys (c : list mongo.StorageDoc) :
  (forall k, (List.length (filter (mongo.key_is k) c) <= 1)%nat) ->
  NoDup (map mongo.sd_key c).
Proof.
  induction c as [|x c IH]; intros H; simpl; constructor.
  - intros Hin. apply In_keys_count in Hin.
    specialize (H (mongo.sd_key x)). simpl in H.
    assert (Hx : mongo.key_is (mongo.sd_key x) x = true)
      by now apply key_is_true.
    rewrite Hx in H. simpl in H. lia.
  - apply IH. intros k. specialize (H k). simpl in H.
    destruct (mongo.key_is k x); simpl in H; lia.
Qed.

Lemma filter_all {A : Type} (f : A -> bool) (l : list A) :
  (forall x, f x = true) -> filter f l = l.
Proof.
  intros H. induction l as [|x l IH]; simpl; [reflexivity|].
  now rewrite H, IH.
Qed.

(** X8.  For a prefix without characters that mean something to the
    regular expression engine, List returns, in the order of the
    collection and whatever the [recursive] flag, the keys of the records
    whose key starts with the prefix: a key is listed exactly when it has
    a record and starts with the prefix, and no key is listed twice where
    each key has one record at most. *)
Theorem List_returns_prefixed_keys :
  forall (m : MongoStorage) (p : string) (recursive : bool)
         (db : mongo.Database),
    literal p = true ->
    exists keys : list string,
      List m None None p recursive db = Some (keys, None) /\
      keys = filter (String.prefix p) (map mongo.sd_key (mongo.storage db)) /\
      (forall k, In k keys <->
                 (0 < record_count k db)%nat /\ String.prefix p k = true) /\
      (one_record_per_key db -> NoDup keys).
Proof.
  intros m p recursive db Hp.
  exists (filter (String.prefix p) (map mongo.sd_key (mongo.storage db))).
  split; [now apply List_literal_prefix|].
  split; [reflexivity|].
  split.
  - intros k. rewrite filter_In, In_keys_count. reflexivity.
  - intros H. apply NoDup_filter, NoDup_keys, H.
Qed.

Lemma List_returns_prefixed_keys_witness :
  literal "certificates/" = true /\
  exists keys : list string,
    List (storage_of "host-a") None None "certificates/" false
      (mongo.mkDatabase [record "certificates/a"; record "locks/a";
                         record "certificates/b"] [] true true)
    = Some (keys, None) /\
    keys = ["certificates/a"; "certificates/b"].
Proof.
  split; [reflexivity|].
  destruct (List_returns_prefixed_keys (storage_of "host-a") "certificates/"
              false
              (mongo.mkDatabase [record "certificates/a"; record "locks/a";
                                 record "certificates/b"] [] true true)
              eq_refl) as [keys [H1 [H2 _]]].
  exists keys. split; [exact H1 | exact H2].
Defined.

(** X9.  The empty prefix lists every key.  When the query itself fails,
    List returns no key and the error; when the cursor fails after it has
    yielded [n] records, List returns the keys read so far together with
    the cursor's error. *)
Theorem List_empty_prefix_and_errors :
  forall (m : MongoStorage) (p : string) (recursive : bool)
         (db : mongo.Database) (e : error),
    literal p = true ->
    List m None None "" recursive db
    = Some (map mongo.sd_key (mongo.storage db), None) /\
    (forall cursor_fault,
        List m (Some e) cursor_fault p recursive db = Some ([], Some e)) /\
    (forall n : nat,
        List m None (Some (n, e)) p recursive db
        = Some (firstn n (filter (String.prefix p)
                            (map mongo.sd_key (mongo.storage db))),
                Some e)).
Proof.
  intros m p recursive db e Hp.
  split.
  - rewrite List_literal_prefix by reflexivity.
    rewrite filter_all; [reflexivity|]. intros k. now destruct k.
  - split; [reflexivity|].
    intros n. unfold List, mongo.Find.
    rewrite (find_regex_literal p _ Hp). cbn [mongo.yields mongo.cursor_err].
    now rewrite <- firstn_map, map_filter_keys.
Qed.

Lemma List_empty_prefix_and_errors_witness :
  literal "a/" = true /\
  List (storage_of "host-a") None (Some (1%nat, MediumError "cursor lost"))
    "a/" false
    (mongo.mkDatabase [record "a/1"; record "b/1"; record "a/2"] [] true true)
  = Some (["a/1"], Some (MediumError "cursor lost")).
Proof.
  split; [reflexivity|].
  exact (proj2 (proj2 (List_empty_prefix_and_errors (storage_of "host-a") "a/"
                         false
                         (mongo.mkDatabase
                            [record "a/1"; record "b/1"; record "a/2"]
                            [] true true)
                         (MediumError "cursor lost") eq_refl)) 1%nat).
Defined.

(** X10.  List follows the writes: after Store(K, V) a literal prefix of K
    lists K, and after Delete(K), where K had one record at most, no
    prefix lists K, while the keys other than K are listed as before. *)
Theorem List_follows_writes :
  forall (m : MongoStorage) (p K : string) (V : list byte) (now : time.Time)
         (recursive : bool) (db : mongo.Database),
    literal p = true ->
    (String.prefix p K = true ->
     exists keys,
       List m None None p recursive (fst (Store m None now K V db))
       = Some (keys, None) /\ In K keys) /\
    ((record_count K db <= 1)%nat ->
     exists keys,
       List m None None p recursive (fst (Delete m None K db))
       = Some (keys, None) /\ ~ In K keys) /\
    (forall (w : write) (k : string),
        write_key w <> k ->
        exists before after,
          List m None None p recursive db = Some (before, None) /\
          List m None None p recursive (apply_write m w db) = Some (after, None) /\
          (In k after <-> In k before)).
Proof.
  intros m p K V now recursive db Hp.
  split; [|split].
  - intros HK. eexists. split; [now apply List_literal_prefix|].
    apply filter_In. split; [|exact HK].
    apply In_keys_count.
    change (0 < record_count K (fst (Store m None now K V db)))%nat.
    unfold record_count. simpl.
    rewrite count_upsert_same by reflexivity. lia.
  - intros Hc. eexists. split; [now apply List_literal_prefix|].
    rewrite filter_In, In_keys_count. intros [H _].
    rewrite Delete_no_fault in H. simpl in H.
    rewrite remove_first_count in H. unfold record_count in Hc. lia.
  - intros w k Hne. do 2 eexists.
    split; [now apply List_literal_prefix|].
    split; [now apply List_literal_prefix|].
    rewrite !filter_In, !In_keys_count.
    now rewrite (apply_write_filter_other m k w db Hne).
Qed.

Lemma List_follows_writes_witness :
  literal "a/" = true /\ String.prefix "a/" "a/2" = true /\
  exists keys,
    List (storage_of "host-a") None None "a/" true
      (fst (Store (storage_of "host-a") None 0 "a/2" [x01]
              (mongo.mkDatabase [record "a/1"; record "b/1"] [] true true)))
    = Some (keys, None) /\ In "a/2" keys.
Proof.
  split; [reflexivity|]. split; [reflexivity|].
  exact (proj1 (List_follows_writes (storage_of "host-a") "a/" "a/2" [x01] 0
                  true
                  (mongo.mkDatabase [record "a/1"; record "b/1"] [] true true)
                  eq_refl) eq_refl).
Defined.

(* ================================================================= *)
(** ** More on NewMongoStorage *)

(** X11.  NewMongoStorage returns either a storage and no error or no
    storage and an error.  It succeeds exactly when the index creation
    meets no fault and the lock collection has no two documents with one
    key; then both indexes are in place, the documents are untouched and
    the storage is that of the host name.  When it fails the database is
    as it was, and the error is the fault, or a duplicate key error where
    the unique index cannot be built. *)
Theorem NewMongoStorage_outcomes :
  forall (index_fault : option error) (kernel : option string)
         (db : mongo.Database),
    match NewMongoStorage index_fault kernel db with
    | (db', (Some m, None)) =>
        index_fault = None /\
        mongo.unique_keys (mongo.locks db) = true /\
        db' = mongo.mkDatabase (mongo.storage db) (mongo.locks db) true true /\
        m = storage_of (fst (os.Hostname kernel))
    | (db', (None, Some e)) =>
        db' = db /\
        (index_fault = Some e \/
         index_fault = None /\ mongo.unique_keys (mongo.locks db) = false /\
         mongo.IsDuplicateKeyError e = true)
    | _ => False
    end.
Proof.
  intros [e|] kernel db; unfold NewMongoStorage, mongo.CreateMany_locks.
  - split; [reflexivity | now left].
  - destruct (mongo.unique_keys (mongo.locks db)) eqn:Hu.
    + destruct kernel; simpl; repeat split.
    + split; [reflexivity|]. right. repeat split.
Qed.

(** X12.  NewMongoStorage may be run again: on the database a successful
    call leaves, a second call that meets no fault succeeds and changes
    nothing.  The storage it returns has a lease length of 60 seconds and
    the two collection names. *)
Theorem NewMongoStorage_again :
  forall (index_fault : option error) (kernel kernel2 : option string)
         (db db' : mongo.Database) (m : MongoStorage),
    NewMongoStorage index_fault kernel db = (db', (Some m, None)) ->
    NewMongoStorage None kernel2 db'
    = (db', (Some (storage_of (fst (os.Hostname kernel2))), None)) /\
    mongo.storage db' = mongo.storage db /\
    mongo.locks db' = mongo.locks db /\
    LockTTL m = 60 * time.Second /\
    Collection m = "certmagic-storage" /\
    Locks m = "certmagic-locks".
Proof.
  intros index_fault kernel kernel2 db db' m H.
  unfold NewMongoStorage, mongo.CreateMany_locks in H.
  destruct index_fault; [discriminate|].
  destruct (mongo.unique_keys (mongo.locks db)) eqn:Hu; [|discriminate].
  assert (Hdb : db' = mongo.mkDatabase (mongo.storage db) (mongo.locks db)
                        true true)
    by (destruct kernel; cbn in H; injection H as <- _; reflexivity).
  assert (Hm : m = storage_of (fst (os.Hostname kernel)))
    by (destruct kernel; cbn in H; injection H as _ <-; reflexivity).
  subst db' m. split.
  - unfold NewMongoStorage, mongo.CreateMany_locks. simpl. rewrite Hu.
    destruct kernel2; reflexivity.
  - repeat split.
Qed.

Lemma NewMongoStorage_again_witness :
  NewMongoStorage None (Some "host-a")
    (mongo.mkDatabase [record "a/1"] [mongo.mkLockDoc "a/1" "host-b" 9]
       false false)
  = (mongo.mkDatabase [record "a/1"] [mongo.mkLockDoc "a/1" "host-b" 9]
       true true,
     (Some (storage_of "host-a"), None)) /\
  NewMongoStorage None (Some "host-b")
    (mongo.mkDatabase [record "a/1"] [mongo.mkLockDoc "a/1" "host-b" 9]
       true true)
  = (mongo.mkDatabase [record "a/1"] [mongo.mkLockDoc "a/1" "host-b" 9]
       true true,
     (Some (storage_of "host-b"), None)).
Proof.
  split; [reflexivity|].
  exact (proj1 (NewMongoStorage_again None (Some "host-a") (Some "host-b")
                  (mongo.mkDatabase [record "a/1"]
                     [mongo.mkLockDoc "a/1" "host-b" 9] false false)
                  _ (storage_of "host-a") eq_refl)).
Defined.

(* ================================================================= *)
(** ** More on Lock *)

(** The four ways a pass can go. *)
Lemma Lock_iteration_cases (ctx : context.Context) (key : string)
    (lock : mongo.LockDoc) (fault : option error) (now : time.Time)
    (db : mongo.Database) :
  mongo.ld_key lock = key ->
  (context.Done ctx now = true /\
   Lock_iteration ctx key lock fault now db
   = (db, Return (Some (timeout_error ctx key)), []))
  \/
  (context.Done ctx now = false /\
   exists e, mongo.IsDuplicateKeyError e = true /\
             Lock_iteration ctx key lock fault now db
             = (db, Continue, [Insert now (Some e); Sleep now (2 * time.Second)]))
  \/
  (context.Done ctx now = false /\
   exists e, mongo.IsDuplicateKeyError e = false /\
             Lock_iteration ctx key lock fault now db
             = (db, Return (Some (acquire_error key e)), [Insert now (Some e)]))
  \/
  (context.Done ctx now = false /\ fault = None /\
   mongo.locks_unique_key db && mongo.has_key key (mongo.locks db) = false /\
   Lock_iteration ctx key lock fault now db
   = (mongo.with_locks db (mongo.locks db ++ [lock]), Return None,
      [Insert now None])).
Proof.
  intros Hkey. unfold Lock_iteration, mongo.InsertOne_locks.
  destruct (context.Done ctx now); [left; auto|].
  right. destruct fault as [e|].
  - destruct (mongo.IsDuplicateKeyError e) eqn:He.
    + left. split; [reflexivity|]. exists e. auto.
    + right; left. split; [reflexivity|]. exists e. auto.
  - rewrite Hkey.
    destruct (mongo.locks_unique_key db && mongo.has_key key (mongo.locks db))
      eqn:Hc.
    + left. split; [reflexivity|]. exists (mongo.E11000 key). auto.
    + right; right. auto.
Qed.

(** What every result of the loop satisfies. *)
Lemma Lock_loop_result (ctx : context.Context) (key : string)
    (lock : mongo.LockDoc) (w : World) (fuel : nat) :
  mongo.ld_key lock = key ->
  forall (now : time.Time) (r : LockResult),
    Lock_loop fuel ctx key lock w now = Some r ->
    Forall (fun ev => context.Done ctx (event_time ev) = false) (lr_trace r) /\
    (exists n : nat, (n < fuel)%nat /\ lr_at r = pass_time now n /\
                     sleeps (lr_trace r) = n) /\
    (forall e, lr_err r = Some e -> lr_db r = db_at w (lr_at r)) /\
    (forall e, lr_err r = Some e ->
               e = timeout_error ctx key /\ context.Done ctx (lr_at r) = true \/
               exists e', e = acquire_error key e' /\
                          fault_at w (lr_at r) = Some e' /\
                          mongo.IsDuplicateKeyError e' = false).
Proof.
  intros Hkey.
  induction fuel as [|fuel IH]; intros now r; cbn [Lock_loop]; [discriminate|].
  destruct (Lock_iteration_cases ctx key lock (fault_at w now) now (db_at w now)
              Hkey)
    as [[Hd Hit] | [[Hd [e [He Hit]]] | [[Hd [e [He Hit]]] | [Hd [Hf [Hc Hit]]]]]];
    rewrite Hit.
  - intros H; injection H as <-. cbn [lr_err lr_at lr_db lr_trace].
    split; [constructor|].
    split; [exists 0%nat; rewrite pass_time_0; repeat split; lia|].
    split; [reflexivity|].
    intros e H; injection H as <-. now left.
  - destruct (Lock_loop fuel ctx key lock w (now + 2 * time.Second))
      as [r'|] eqn:Hr; [|discriminate].
    intros H; injection H as <-. cbn [lr_err lr_at lr_db lr_trace].
    destruct (IH _ _ Hr) as [H1 [[n [Hn [Hat Hs]]] [H3 H4]]].
    split; [repeat constructor; trivial|].
    split; [|split; assumption].
    exists (S n). rewrite <- pass_time_succ.
    repeat split; [lia | exact Hat | cbn [app sleeps]; now rewrite Hs].
  - intros H; injection H as <-. cbn [lr_err lr_at lr_db lr_trace].
    split; [repeat constructor; trivial|].
    split; [exists 0%nat; rewrite pass_time_0; repeat split; lia|].
    split; [reflexivity|].
    intros e0 H; injection H as <-. right. exists e. repeat split; trivial.
    unfold Lock_iteration, mongo.InsertOne_locks in Hit. rewrite Hd in Hit.
    destruct (fault_at w now) as [f|].
    + destruct (mongo.IsDuplicateKeyError f); [discriminate|].
      injection Hit as Hit _. unfold acquire_error in Hit. congruence.
    + destruct (mongo.locks_unique_key (db_at w now)
                && mongo.has_key (mongo.ld_key lock) (mongo.locks (db_at w now)));
        discriminate.
  - intros H; injection H as <-. cbn [lr_err lr_at lr_db lr_trace].
    split; [repeat constructor; trivial|].
    split; [exists 0%nat; rewrite pass_time_0; repeat split; lia|].
    split; discriminate.
Qed.

Lemma Done_never (ctx : context.Context) (t : time.Time) :
  context.done_at ctx = None -> context.Done ctx t = false.
Proof. intros H. unfold context.Done. now rewrite H. Qed.

Lemma pass_time_ge (t0 : time.Time) (i : nat) : t0 <= pass_time t0 i.
Proof. unfold pass_time, time.Second. lia. Qed.

(** After [n] passes that find the key taken, a pass that finds it free
    inserts the document and ends the loop. *)
Lemma Lock_success_after_polls (m : MongoStorage) (ctx : context.Context)
    (key : string) (w : World) (t0 : time.Time) (n : nat) :
  (forall i, (i < n)%nat ->
             context.Done ctx (pass_time t0 i) = false /\
             held_at w key (pass_time t0 i)) ->
  context.Done ctx (pass_time t0 n) = false ->
  free_at w key (pass_time t0 n) ->
  forall fuel, (n < fuel)%nat ->
    Lock m ctx key w t0 fuel
    = Some (mkLockResult None (pass_time t0 n)
              (mongo.with_locks (db_at w (pass_time t0 n))
                 (mongo.locks (db_at w (pass_time t0 n))
                    ++ [lock_document m key t0]))
              (polls key t0 n ++ [Insert (pass_time t0 n) None])%list).
Proof.
  intros Hheld Hd [Hf Hk] fuel Hfuel.
  replace fuel with (n + S (fuel - S n))%nat by lia.
  unfold Lock.
  rewrite (Lock_loop_polls ctx key _ (lock_document_key m key t0) w n _ _ Hheld).
  cbn [Lock_loop]. rewrite Hf.
  rewrite (iteration_free ctx key _ (lock_document_key m key t0) _ _ Hd)
    by (rewrite Hk; apply andb_false_r).
  reflexivity.
Qed.

Lemma sleeps_polls (k : string) (n : nat) :
  forall (t : time.Time) (tr : list event),
    sleeps (polls k t n ++ tr) = (n + sleeps tr)%nat.
Proof.
  induction n as [|n IH]; intros t tr; cbn [polls app sleeps]; [reflexivity|].
  now rewrite IH.
Qed.

(** X13.  Lock acquires on the first pass that finds the key free: after
    [n] passes refused as duplicates, each followed by a sleep of two
    seconds, the insert at instant t0 + n * 2 s succeeds and Lock returns
    nil at that instant, having added to the lock collection one document
    with the key, the InstanceID of the storage and the expiry computed on
    entry, and nothing else. *)
Theorem Lock_acquires_when_free :
  forall (m : MongoStorage) (ctx : context.Context) (key : string) (w : World)
         (t0 : time.Time) (n : nat),
    (forall i, (i < n)%nat ->
               context.Done ctx (pass_time t0 i) = false /\
               held_at w key (pass_time t0 i)) ->
    context.Done ctx (pass_time t0 n) = false ->
    free_at w key (pass_time t0 n) ->
    forall fuel, (n < fuel)%nat ->
    exists r,
      Lock m ctx key w t0 fuel = Some r /\
      lr_err r = None /\
      lr_at r = t0 + 2 * time.Second * Z.of_nat n /\
      sleeps (lr_trace r) = n /\
      mongo.locks (lr_db r)
      = (mongo.locks (db_at w (lr_at r))
           ++ [mongo.mkLockDoc key (InstanceID m)
                 (mongo.DateTime (t0 + LockTTL m))])%list /\
      mongo.storage (lr_db r) = mongo.storage (db_at w (lr_at r)).
Proof.
  intros m ctx key w t0 n Hheld Hd Hfree fuel Hfuel.
  eexists. split;
    [exact (Lock_success_after_polls m ctx key w t0 n Hheld Hd Hfree fuel Hfuel)|].
  cbn [lr_err lr_at lr_db lr_trace mongo.locks mongo.storage mongo.with_locks].
  repeat split.
  rewrite sleeps_polls. cbn [sleeps]. lia.
Qed.

Lemma Lock_acquires_when_free_witness :
  let w := held_until "cert-x" "host-b" (3 * time.Second) in
  (forall i, (i < 2)%nat ->
             context.Done context.Background (pass_time 0 i) = false /\
             held_at w "cert-x" (pass_time 0 i)) /\
  context.Done context.Background (pass_time 0 2) = false /\
  free_at w "cert-x" (pass_time 0 2) /\
  exists r,
    Lock (storage_of "host-a") context.Background "cert-x" w 0 3 = Some r /\
    lr_err r = None /\
    lr_at r = 0 + 2 * time.Second * Z.of_nat 2.
Proof.
  cbv zeta.
  assert (Hheld : forall i, (i < 2)%nat ->
            context.Done context.Background (pass_time 0 i) = false /\
            held_at (held_until "cert-x" "host-b" (3 * time.Second)) "cert-x"
              (pass_time 0 i)).
  { intros i Hi.
    assert (Hi' : i = 0%nat \/ i = 1%nat) by lia.
    destruct Hi' as [-> | ->]; (split; [reflexivity|]; repeat split; reflexivity). }
  assert (Hfree : free_at (held_until "cert-x" "host-b" (3 * time.Second))
                    "cert-x" (pass_time 0 2))
    by (split; reflexivity).
  split; [exact Hheld|]. split; [reflexivity|]. split; [exact Hfree|].
  destruct (Lock_acquires_when_free (storage_of "host-a") context.Background
              "cert-x" _ 0 2 Hheld eq_refl Hfree 3%nat ltac:(lia))
    as [r [H1 [H2 [H3 _]]]].
  exists r. auto.
Defined.

(** X14.  A waiter acquires within one sleep of the release: when the key
    is taken until instant R and free from R on, and the context never
    ends, Lock returns nil at its first pass at or after R, less than two
    seconds after the later of its entry and R. *)
Theorem Lock_acquires_after_release :
  forall (m : MongoStorage) (ctx : context.Context) (key : string) (w : World)
         (t0 R : time.Time),
    context.done_at ctx = None ->
    (forall t, t0 <= t -> t < R -> held_at w key t) ->
    (forall t, R <= t -> free_at w key t) ->
    exists (n : nat) (r : LockResult),
      (forall fuel, (n < fuel)%nat -> Lock m ctx key w t0 fuel = Some r) /\
      lr_err r = None /\
      lr_at r = pass_time t0 n /\
      Z.max t0 R <= lr_at r < Z.max t0 R + 2 * time.Second /\
      In (lock_document m key t0) (mongo.locks (lr_db r)).
Proof.
  intros m ctx key w t0 R Hctx Hheld Hfree.
  destruct (polls_until R (Z.to_nat (Z.max 0 (R - t0))) t0) as [n [_ [Hn Hi]]].
  { unfold time.Second. lia. }
  eexists n, _. split.
  - intros fuel Hfuel.
    apply (Lock_success_after_polls m ctx key w t0 n); trivial.
    + intros i Hlt. split; [now apply Done_never|].
      apply Hheld; [apply pass_time_ge | now apply Hi].
    + now apply Done_never.
    + now apply Hfree.
  - cbn [lr_err lr_at lr_db lr_trace mongo.locks mongo.with_locks].
    split; [reflexivity|]. split; [reflexivity|].
    split.
    + pose proof (pass_time_ge t0 n) as Hge.
      destruct n as [|n'].
      * rewrite pass_time_0 in *. unfold time.Second. lia.
      * specialize (Hi n' ltac:(lia)).
        unfold pass_time in *. unfold time.Second in *. lia.
    + apply in_or_app. right. now left.
Qed.

Lemma Lock_acquires_after_release_witness :
  let w := held_until "cert-x" "host-b" (5 * time.Second) in
  context.done_at context.Background = None /\
  (forall t, 0 <= t -> t < 5 * time.Second -> held_at w "cert-x" t) /\
  (forall t, 5 * time.Second <= t -> free_at w "cert-x" t) /\
  exists (n : nat) (r : LockResult),
    (forall fuel, (n < fuel)%nat ->
                  Lock (storage_of "host-a") context.Background "cert-x" w 0 fuel
                  = Some r) /\
    lr_err r = None /\
    lr_at r = pass_time 0 n /\
    Z.max 0 (5 * time.Second) <= lr_at r
      < Z.max 0 (5 * time.Second) + 2 * time.Second /\
    In (lock_document (storage_of "host-a") "cert-x" 0) (mongo.locks (lr_db r)).
Proof.
  cbv zeta.
  assert (Hheld : forall t, 0 <= t -> t < 5 * time.Second ->
                  held_at (held_until "cert-x" "host-b" (5 * time.Second))
                    "cert-x" t).
  { intros t H0 H5. unfold held_at, held_until. cbn [db_at fault_at].
    destruct (Z.ltb_spec t (5 * time.Second)) as [_|Hge];
      [repeat split; reflexivity | lia]. }
  assert (Hfree : forall t, 5 * time.Second <= t ->
                  free_at (held_until "cert-x" "host-b" (5 * time.Second))
                    "cert-x" t).
  { intros t H5. unfold free_at, held_until. cbn [db_at fault_at].
    destruct (Z.ltb_spec t (5 * time.Second)) as [Hlt|_];
      [lia | split; reflexivity]. }
  split; [reflexivity|]. split; [exact Hheld|]. split; [exact Hfree|].
  exact (Lock_acquires_after_release (storage_of "host-a") context.Background
           "cert-x" _ 0 (5 * time.Second) eq_refl Hheld Hfree).
Defined.

(** X15.  With a context that never ends, Lock does not return while the
    key stays taken: no number of passes produces a result. *)
Theorem Lock_blocks_while_held :
  forall (m : MongoStorage) (ctx : context.Context) (key : string) (w : World)
         (t0 : time.Time),
    context.done_at ctx = None ->
    (forall t, t0 <= t -> held_at w key t) ->
    forall fuel, Lock m ctx key w t0 fuel = None.
Proof.
  intros m ctx key w t0 Hctx Hheld fuel.
  unfold Lock. replace fuel with (fuel + 0)%nat by lia.
  rewrite (Lock_loop_polls ctx key _ (lock_document_key m key t0) w fuel).
  - reflexivity.
  - intros i _. split; [now apply Done_never|].
    apply Hheld, pass_time_ge.
Qed.

Lemma Lock_blocks_while_held_witness :
  context.done_at context.Background = None /\
  (forall t, 0 <= t -> held_at (held_forever "cert-x" "host-b") "cert-x" t) /\
  Lock (storage_of "host-a") context.Background "cert-x"
    (held_forever "cert-x" "host-b") 0 1000 = None.
Proof.
  assert (Hheld : forall t, 0 <= t ->
                  held_at (held_forever "cert-x" "host-b") "cert-x" t)
    by (intros t _; repeat split; reflexivity).
  split; [reflexivity|]. split; [exact Hheld|].
  exact (Lock_blocks_while_held (storage_of "host-a") context.Background
           "cert-x" _ 0 eq_refl Hheld 1000%nat).
Defined.

(** X16.  Whatever the world does, a Lock that returns has made every
    insert and begun every sleep at an instant the context had not ended;
    it returns at instant t0 + n * 2 s after exactly n sleeps; and entered
    with a context already ended it returns the timeout error at once
    without a single call to the store. *)
Theorem Lock_respects_context :
  forall (m : MongoStorage) (ctx : context.Context) (key : string) (w : World)
         (t0 : time.Time) (fuel : nat) (r : LockResult),
    Lock m ctx key w t0 fuel = Some r ->
    Forall (fun ev => context.Done ctx (event_time ev) = false) (lr_trace r) /\
    (exists n : nat, (n < fuel)%nat /\
                     lr_at r = t0 + 2 * time.Second * Z.of_nat n /\
                     sleeps (lr_trace r) = n) /\
    (context.Done ctx t0 = true ->
     r = mkLockResult (Some (timeout_error ctx key)) t0 (db_at w t0) []).
Proof.
  intros m ctx key w t0 fuel r H.
  destruct (Lock_loop_result ctx key _ w fuel (lock_document_key m key t0)
              t0 r H) as [H1 [H2 _]].
  split; [exact H1|]. split; [exact H2|].
  intros Hd. unfold Lock in H. destruct fuel as [|fuel]; [discriminate|].
  cbn [Lock_loop] in H. rewrite (iteration_done ctx key _ _ _ _ Hd) in H.
  now injection H as <-.
Qed.

Lemma Lock_respects_context_witness :
  Lock (storage_of "host-a") (context.WithDeadline 0) "cert-x" (still fresh) 0 1
  = Some (mkLockResult
            (Some (timeout_error (context.WithDeadline 0) "cert-x")) 0 fresh []) /\
  context.Done (context.WithDeadline 0) 0 = true /\
  mkLockResult (Some (timeout_error (context.WithDeadline 0) "cert-x")) 0 fresh []
  = mkLockResult (Some (timeout_error (context.WithDeadline 0) "cert-x")) 0
      (db_at (still fresh) 0) [].
Proof.
  assert (H : Lock (storage_of "host-a") (context.WithDeadline 0) "cert-x"
                (still fresh) 0 1
              = Some (mkLockResult
                        (Some (timeout_error (context.WithDeadline 0) "cert-x"))
                        0 fresh [])) by reflexivity.
  split; [exact H|]. split; [reflexivity|].
  exact (proj2 (proj2 (Lock_respects_context (storage_of "host-a")
                         (context.WithDeadline 0) "cert-x" (still fresh) 0 1 _ H))
           eq_refl).
Defined.




Lemma ttl_sweep_locks (now : time.Time) (db : mongo.Database) :
  mongo.locks_ttl db = true ->
  mongo.locks (mongo.ttl_sweep now db)
  = filter (fun d => negb (mongo.expired now d)) (mongo.locks db).
Proof. intros H. unfold mongo.ttl_sweep. now rewrite H. Qed.

(** X18.  A lease is reclaimed once its time is over.  After a Lock that
    returned nil, on a database with both indexes, a sweep of the TTL
    monitor at any instant from t0 + LockTTL on removes the lock document,
    and then a Lock of the key by any storage, with a context not ended,
    acquires on its first pass; a sweep before the expiry written in the
    document keeps it. *)
Theorem expired_lease_is_reclaimed :
  forall (m : MongoStorage) (ctx : context.Context) (key : string) (w : World)
         (t0 : time.Time) (fuel : nat) (r : LockResult) (now : time.Time),
    Lock m ctx key w t0 fuel = Some r ->
    lr_err r = None ->
    mongo.locks_unique_key (db_at w (lr_at r)) = true ->
    mongo.locks_ttl (db_at w (lr_at r)) = true ->
    (t0 + LockTTL m <= now ->
     mongo.has_key key (mongo.locks (mongo.ttl_sweep now (lr_db r))) = false /\
     forall (m' : MongoStorage) (ctx' : context.Context) (t' : time.Time)
            (fuel' : nat),
       context.Done ctx' t' = false ->
       exists r',
         Lock m' ctx' key (still (mongo.ttl_sweep now (lr_db r))) t' (S fuel')
         = Some r' /\
         lr_err r' = None /\ lr_at r' = t' /\ sleeps (lr_trace r') = 0%nat) /\
    (now < mongo.DateTime (t0 + LockTTL m) ->
     In (lock_document m key t0)
        (mongo.locks (mongo.ttl_sweep now (lr_db r)))).
Proof.
  intros m ctx key w t0 fuel r now HL He Hu Httl.
  destruct (Lock_loop_success ctx key _ (lock_document_key m key t0)
              w fuel t0 r HL He) as [Hdb [Hfree _]].
  rewrite Hu in Hfree. simpl in Hfree.
  assert (Hsweep : mongo.locks (mongo.ttl_sweep now (lr_db r))
                   = (filter (fun d => negb (mongo.expired now d))
                        (mongo.locks (db_at w (lr_at r)))
                      ++ filter (fun d => negb (mongo.expired now d))
                           [lock_document m key t0])%list).
  { rewrite ttl_sweep_locks by (rewrite Hdb; exact Httl).
    rewrite Hdb. cbn [mongo.locks mongo.with_locks]. apply filter_app. }
  split.
  - intros Hnow.
    assert (Hexp : mongo.expired now (lock_document m key t0) = true).
    { unfold mongo.expired, lock_document, time.Add. cbn [mongo.ld_expires_at].
      apply Z.leb_le. pose proof (DateTime_bounds (t0 + LockTTL m)). lia. }
    assert (Hgone : mongo.has_key key
                      (mongo.locks (mongo.ttl_sweep now (lr_db r))) = false).
    { rewrite Hsweep. cbn [filter]. rewrite Hexp. cbn [negb].
      rewrite app_nil_r. now apply has_key_filter. }
    split; [exact Hgone|].
    intros m' ctx' t' fuel' Hd.
    eexists. split.
    + apply (Lock_success_after_polls m' ctx' key _ t' 0).
      * intros i Hi. lia.
      * now rewrite pass_time_0.
      * rewrite pass_time_0. split; [reflexivity | exact Hgone].
      * lia.
    + cbn [lr_err lr_at lr_trace polls app sleeps].
      rewrite pass_time_0. auto.
  - intros Hnow. rewrite Hsweep. apply in_or_app. right.
    cbn [filter].
    assert (Hexp : mongo.expired now (lock_document m key t0) = false).
    { unfold mongo.expired, lock_document, time.Add. cbn [mongo.ld_expires_at].
      apply Z.leb_gt. exact Hnow. }
    rewrite Hexp. now left.
Qed.

Lemma expired_lease_is_reclaimed_witness :
  let r := mkLockResult None 0
             (mongo.mkDatabase []
                [mongo.mkLockDoc "cert-x" "host-a" (60 * time.Second)] true true)
             [Insert 0 None] in
  Lock (storage_of "host-a") context.Background "cert-x" (still fresh) 0 1
  = Some r /\
  0 + LockTTL (storage_of "host-a") <= 60 * time.Second /\
  mongo.has_key "cert-x"
    (mongo.locks (mongo.ttl_sweep (60 * time.Second) (lr_db r))) = false.
Proof.
  cbv zeta.
  assert (H : Lock (storage_of "host-a") context.Background "cert-x"
                (still fresh) 0 1
              = Some (mkLockResult None 0
                        (mongo.mkDatabase []
                           [mongo.mkLockDoc "cert-x" "host-a" (60 * time.Second)]
                           true true)
                        [Insert 0 None])) by (vm_compute; reflexivity).
  assert (Hle : 0 + LockTTL (storage_of "host-a") <= 60 * time.Second)
    by (vm_compute; discriminate).
  split; [exact H|]. split; [exact Hle|].
  exact (proj1 (proj1 (expired_lease_is_reclaimed (storage_of "host-a")
                         context.Background "cert-x" (still fresh) 0 1 _
                         (60 * time.Second) H eq_refl eq_refl eq_refl) Hle)).
Defined.

(* ================================================================= *)
(** ** More on Unlock *)

Lemma has_key_In (k : string) (c : list mongo.LockDoc) :
  mongo.has_key k c = true <-> exists d, In d c /\ mongo.ld_key d = k.
Proof.
  unfold mongo.has_key. rewrite existsb_exists.
  split; intros [d [Hin Hk]]; exists d; split; trivial;
    now apply String.eqb_eq.
Qed.

Lemma unique_keys_same (c : list mongo.LockDoc) (d1 d2 : mongo.LockDoc) :
  mongo.unique_keys c = true ->
  In d1 c -> In d2 c -> mongo.ld_key d1 = mongo.ld_key d2 -> d1 = d2.
Proof.
  induction c as [|x c IH]; simpl; [tauto|].
  intros H H1 H2 Hk. apply andb_true_iff in H as [Hx Hc].
  apply negb_true_iff in Hx.
  assert (Hno : forall d, In d c -> mongo.ld_key d <> mongo.ld_key x).
  { intros d Hin He.
    assert (Ht : mongo.has_key (mongo.ld_key x) c = true)
      by (apply has_key_In; now exists d).
    congruence. }
  destruct H1 as [<-|H1]; destruct H2 as [<-|H2]; trivial.
  - exfalso. now apply (Hno d2 H2).
  - exfalso. now apply (Hno d1 H1).
  - now apply IH.
Qed.

Lemma find_app_absent {A : Type} (f : A -> bool) (c l : list A) :
  find f c = None -> find f (c ++ l) = find f l.
Proof.
  induction c as [|x c IH]; simpl; [trivial|].
  destruct (f x); [discriminate | exact IH].
Qed.

(** Under the unique index, removing the document that matches the filter
    leaves no document with its key. *)
Lemma remove_first_releases (k i : string) (c : list mongo.LockDoc)
    (d : mongo.LockDoc) :
  mongo.unique_keys c = true ->
  In d c -> mongo.ld_key d = k -> mongo.ld_instance d = i ->
  mongo.has_key k (fst (mongo.remove_first (mongo.lock_filter k i) c)) = false.
Proof.
  intros Hu Hin Hk Hi.
  induction c as [|x c IH]; simpl in *; [tauto|].
  apply andb_true_iff in Hu as [Hx Hc]. apply negb_true_iff in Hx.
  destruct (mongo.lock_filter k i x) eqn:Hf; simpl.
  - unfold mongo.lock_filter in Hf. apply andb_true_iff in Hf as [Hf _].
    apply String.eqb_eq in Hf. now rewrite <- Hf.
  - destruct Hin as [->|Hin].
    + unfold mongo.lock_filter in Hf. rewrite Hk, Hi, !String.eqb_refl in Hf.
      discriminate.
    + assert (Hxk : String.eqb (mongo.ld_key x) k = false).
      { apply String.eqb_neq. intros He.
        assert (Ht : mongo.has_key (mongo.ld_key x) c = true)
          by (apply has_key_In; exists d; split; [exact Hin | congruence]).
        congruence. }
      specialize (IH Hc Hin).
      destruct (mongo.remove_first (mongo.lock_filter k i) c) as [r n];
        simpl in *.
      now rewrite Hxk, IH.
Qed.

(** X19.  After a Lock that returned nil under the unique index, Unlock
    through a storage with another InstanceID returns nil and changes
    nothing, the key staying taken; Unlock through the storage that
    acquired returns nil and leaves no document for the key, and a second
    Unlock after it returns nil and changes nothing. *)
Theorem Unlock_after_Lock :
  forall (m m' : MongoStorage) (ctx : context.Context) (key : string)
         (w : World) (t0 : time.Time) (fuel : nat) (r : LockResult),
    Lock m ctx key w t0 fuel = Some r ->
    lr_err r = None ->
    mongo.locks_unique_key (db_at w (lr_at r)) = true ->
    (InstanceID m' <> InstanceID m ->
     Unlock m' None key (lr_db r) = (lr_db r, None) /\
     mongo.has_key key (mongo.locks (lr_db r)) = true) /\
    Unlock m None key (lr_db r) = (db_at w (lr_at r), None) /\
    mongo.has_key key (mongo.locks (db_at w (lr_at r))) = false /\
    Unlock m None key (db_at w (lr_at r)) = (db_at w (lr_at r), None).
Proof.
  intros m m' ctx key w t0 fuel r HL He Hu.
  destruct (Lock_loop_success ctx key _ (lock_document_key m key t0)
              w fuel t0 r HL He) as [Hdb [Hfree _]].
  rewrite Hu in Hfree. simpl in Hfree.
  assert (Hnone : forall i, find (mongo.lock_filter key i)
                              (mongo.locks (db_at w (lr_at r))) = None)
    by (intros i; now apply has_key_find).
  split; [|split; [|split]].
  - intros Hne. split.
    + rewrite Unlock_no_fault, remove_first_absent.
      * simpl. now rewrite with_locks_id.
      * rewrite Hdb. cbn [mongo.locks mongo.with_locks].
        rewrite (find_app_absent _ _ _ (Hnone _)). cbn [find].
        unfold mongo.lock_filter. cbn [lock_document mongo.ld_key
                                        mongo.ld_instance].
        apply not_eq_sym, String.eqb_neq in Hne. rewrite Hne.
        now rewrite andb_false_r.
    + rewrite Hdb. cbn [mongo.locks mongo.with_locks].
      rewrite has_key_app, lock_document_key, String.eqb_refl.
      apply orb_true_r.
  - rewrite Unlock_no_fault, Hdb. cbn [mongo.locks mongo.with_locks].
    rewrite remove_first_last.
    + cbn [fst]. f_equal. now destruct (db_at w (lr_at r)).
    + apply Hnone.
    + unfold mongo.lock_filter. cbn. now rewrite !String.eqb_refl.
  - exact Hfree.
  - rewrite Unlock_no_fault, remove_first_absent by apply Hnone.
    simpl. now rewrite with_locks_id.
Qed.

Lemma Unlock_after_Lock_witness :
  let r := mkLockResult None 0
             (mongo.mkDatabase []
                [mongo.mkLockDoc "cert-x" "host-a" (60 * time.Second)] true true)
             [Insert 0 None] in
  Lock (storage_of "host-a") context.Background "cert-x" (still fresh) 0 1
  = Some r /\
  InstanceID (storage_of "host-b") <> InstanceID (storage_of "host-a") /\
  Unlock (storage_of "host-b") None "cert-x" (lr_db r) = (lr_db r, None) /\
  Unlock (storage_of "host-a") None "cert-x" (lr_db r) = (fresh, None).
Proof.
  cbv zeta.
  assert (H : Lock (storage_of "host-a") context.Background "cert-x"
                (still fresh) 0 1
              = Some (mkLockResult None 0
                        (mongo.mkDatabase []
                           [mongo.mkLockDoc "cert-x" "host-a" (60 * time.Second)]
                           true true)
                        [Insert 0 None])) by (vm_compute; reflexivity).
  assert (Hne : InstanceID (storage_of "host-b")
                <> InstanceID (storage_of "host-a")) by discriminate.
  split; [exact H|]. split; [exact Hne|].
  pose proof (Unlock_after_Lock (storage_of "host-a") (storage_of "host-b")
                context.Background "cert-x" (still fresh) 0 1 _
                H eq_refl eq_refl) as [H1 [H2 _]].
  split; [exact (proj1 (H1 Hne)) | exact H2].
Defined.

(* ================================================================= *)
(** ** More on the runs of several callers *)

(** What a pass can do to the lock collection. *)
Lemma Lock_iteration_database (ctx : context.Context) (key : string)
    (lock : mongo.LockDoc) (fault : option error) (now : time.Time)
    (db : mongo.Database) :
  let '(db', res, _) := Lock_iteration ctx key lock fault now db in
  mongo.locks_ttl db' = mongo.locks_ttl db /\
  mongo.storage db' = mongo.storage db /\
  (res = Return None /\ mongo.locks db' = (mongo.locks db ++ [lock])%list \/
   res <> Return None /\ db' = db).
Proof.
  unfold Lock_iteration, mongo.InsertOne_locks.
  destruct (context.Done ctx now).
  { repeat split. right. split; [discriminate | reflexivity]. }
  destruct fault as [e|].
  - destruct (mongo.IsDuplicateKeyError e); repeat split; right;
      (split; [discriminate | reflexivity]).
  - destruct (mongo.locks_unique_key db
              && mongo.has_key (mongo.ld_key lock) (mongo.locks db)).
    + cbn [mongo.E11000 mongo.IsDuplicateKeyError]. repeat split. right.
      split; [discriminate | reflexivity].
    + repeat split. now left.
Qed.

Section Leases.

Variable ms : nat -> MongoStorage.
Variable ttl : time.Duration.
Hypothesis ttl_covers : forall i, LockTTL (ms i) <= ttl.

Lemma step_leases_within (a : action) (s s' : System) :
  leases_within ttl s -> step ms a s = Some s' -> leases_within ttl s'.
Proof.
  intros (L1 & L2 & L3).
  destruct a as [d | | i ctx key | i fault | i key fault]; cbn [step].
  - (* Tick *)
    destruct (Z.leb_spec 0 d) as [Hd|Hd]; [|discriminate].
    intros H; injection H as <-. repeat split; cbn [sys_db sys_now sys_pc].
    + exact L1.
    + intros x Hx. specialize (L2 x Hx). lia.
    + intros j c k l Hj. specialize (L3 j c k l Hj). lia.
  - (* Sweep *)
    intros H; injection H as <-. repeat split; cbn [sys_db sys_now sys_pc].
    + unfold mongo.ttl_sweep. now rewrite L1.
    + intros x. rewrite (ttl_sweep_locks _ _ L1), filter_In.
      intros [Hx _]. now apply L2.
    + intros j c k l Hj. apply settle_Running in Hj. eapply L3, Hj.
  - (* CallLock *)
    destruct (sys_pc s i) eqn:Hi; try discriminate.
    intros H; injection H as <-. repeat split; cbn [sys_db sys_now sys_pc];
      trivial.
    intros j c k l. destruct (Nat.eq_dec j i) as [->|Hne].
    + rewrite set_pc_same. intros H; injection H as _ _ <-.
      unfold lock_document, time.Add. cbn [mongo.ld_expires_at].
      pose proof (DateTime_bounds (sys_now s + LockTTL (ms i))).
      specialize (ttl_covers i). lia.
    + rewrite set_pc_other by assumption. apply L3.
  - (* Iterate *)
    destruct (sys_pc s i) as [|ctx key lock| |] eqn:Hi; try discriminate.
    pose proof (Lock_iteration_database ctx key lock fault (sys_now s) (sys_db s))
      as Hit.
    destruct (Lock_iteration ctx key lock fault (sys_now s) (sys_db s))
      as [[db' res] evs].
    destruct Hit as [Ht [_ Hdb]].
    intros H; injection H as <-. repeat split; cbn [sys_db sys_now sys_pc].
    + congruence.
    + intros x Hx. destruct Hdb as [[_ Hdb] | [_ ->]]; [|now apply L2].
      rewrite Hdb in Hx. apply in_app_or in Hx as [Hx | [<- | []]];
        [now apply L2 | eapply L3, Hi].
    + intros j c k l. destruct (Nat.eq_dec j i) as [->|Hne].
      * rewrite set_pc_same.
        destruct res as [[e|]|]; try discriminate.
        intros H; injection H as _ _ <-. eapply L3, Hi.
      * rewrite set_pc_other by assumption. apply L3.
  - (* CallUnlock *)
    assert (Hgo : forall p',
               (forall c k l, p' = Running c k l -> sys_pc s i = Running c k l) ->
               forall db' err,
                 Unlock (ms i) fault key (sys_db s) = (db', err) ->
                 leases_within ttl
                   (mkSystem db' (sys_now s)
                      (settle db' (set_pc (sys_pc s) i p')))).
    { intros p' Hp' db' err HU.
      assert (Hsub : mongo.locks_ttl db' = true /\
                     forall x, In x (mongo.locks db') ->
                               In x (mongo.locks (sys_db s))).
      { destruct fault as [e|].
        - cbn in HU. injection HU as <- _. auto.
        - rewrite Unlock_no_fault in HU. injection HU as <- _.
          split; [exact L1|]. intros x. apply remove_first_In. }
      destruct Hsub as [Ht Hsub].
      repeat split; cbn [sys_db sys_now sys_pc]; trivial.
      - intros x Hx. apply L2, Hsub, Hx.
      - intros j c k l Hj. apply settle_Running in Hj. revert Hj.
        destruct (Nat.eq_dec j i) as [->|Hne].
        + rewrite set_pc_same. intros Hj. eapply L3, Hp', Hj.
        + rewrite set_pc_other by assumption. apply L3. }
    destruct (sys_pc s i) as [|c k l|k|k] eqn:Hi; [| discriminate | |];
      destruct (Unlock (ms i) fault key (sys_db s)) as [db' err] eqn:HU;
      intros H; injection H as <-; (eapply Hgo; [|reflexivity]);
      intros c0 k0 l0; destruct err; try destruct (String.eqb k key);
      discriminate.
Qed.

Lemma run_leases_within (acts : list action) :
  forall s s' : System,
    leases_within ttl s -> run ms acts s = Some s' -> leases_within ttl s'.
Proof.
  induction acts as [|a acts IH]; intros s s' L; cbn [run].
  - intros H; injection H as <-. exact L.
  - destruct (step ms a s) as [s1|] eqn:Hs; [|discriminate].
    apply IH. eapply step_leases_within; eassumption.
Qed.

End Leases.

Lemma filter_none {A : Type} (f : A -> bool) (l : list A) :
  (forall x, In x l -> f x = false) -> filter f l = [].
Proof.
  induction l as [|x l IH]; intros H; simpl; [reflexivity|].
  rewrite (H x (or_introl eq_refl)). apply IH. intros y Hy. apply H. now right.
Qed.

(** X20.  No lease reaches further than the lease length from now.  In
    every state of every run of callers whose storages have a LockTTL of
    at most [ttl], started with the TTL index in place, each lock document
    expires at most [ttl] after the present instant; so once [ttl] has
    passed a sweep of the TTL monitor leaves the lock collection empty and
    nobody holding a lock, whatever the callers did or failed to do. *)
Theorem leases_end_within_ttl :
  forall (ms : nat -> MongoStorage) (ttl : time.Duration) (acts : list action)
         (db0 : mongo.Database) (t0 : time.Time) (s : System),
    (forall i, LockTTL (ms i) <= ttl) ->
    0 <= ttl ->
    mongo.locks_ttl db0 = true ->
    (forall d, In d (mongo.locks db0) -> mongo.ld_expires_at d <= t0 + ttl) ->
    run ms acts (all_idle db0 t0) = Some s ->
    (forall d, In d (mongo.locks (sys_db s)) ->
               mongo.ld_expires_at d <= sys_now s + ttl) /\
    exists s',
      run ms [Tick ttl; Sweep] s = Some s' /\
      mongo.locks (sys_db s') = [] /\
      forall i K, ~ holds s' i K.
Proof.
  intros ms ttl acts db0 t0 s Httl Hpos Hidx Hdocs Hrun.
  assert (L0 : leases_within ttl (all_idle db0 t0)).
  { repeat split; cbn [all_idle sys_db sys_now sys_pc]; trivial. discriminate. }
  destruct (run_leases_within ms ttl Httl acts _ _ L0 Hrun) as (L1 & L2 & _).
  split; [exact L2|].
  cbn [run step]. apply Z.leb_le in Hpos. rewrite Hpos.
  eexists. split; [reflexivity|].
  cbn [sys_db sys_now sys_pc].
  assert (Hempty : mongo.locks (mongo.ttl_sweep (sys_now s + ttl) (sys_db s)) = []).
  { rewrite (ttl_sweep_locks _ _ L1). apply filter_none.
    intros d Hd. unfold mongo.expired. apply negb_false_iff, Z.leb_le.
    now apply L2. }
  split; [exact Hempty|].
  intros i K H. unfold holds in H. cbn [sys_pc] in H.
  apply settle_Holding in H as [_ H]. rewrite Hempty in H. discriminate.
Qed.

Lemma leases_end_within_ttl_witness :
  (forall i, LockTTL (two_hosts i) <= 60 * time.Second) /\
  0 <= 60 * time.Second /\
  mongo.locks_ttl fresh = true /\
  (forall d, In d (mongo.locks fresh) ->
             mongo.ld_expires_at d <= 0 + 60 * time.Second) /\
  exists s,
    run two_hosts contention (all_idle fresh 0) = Some s /\
    holds s 1 "cert-x" /\
    exists s',
      run two_hosts [Tick (60 * time.Second); Sweep] s = Some s' /\
      mongo.locks (sys_db s') = [] /\
      forall i K, ~ holds s' i K.
Proof.
  assert (H1 : forall i, LockTTL (two_hosts i) <= 60 * time.Second)
    by (intros i; unfold two_hosts; simpl; lia).
  assert (H2 : 0 <= 60 * time.Second) by (vm_compute; discriminate).
  assert (H4 : forall d, In d (mongo.locks fresh) ->
                         mongo.ld_expires_at d <= 0 + 60 * time.Second)
    by (intros d []).
  split; [exact H1|]. split; [exact H2|]. split; [reflexivity|].
  split; [exact H4|].
  destruct (run two_hosts contention (all_idle fresh 0)) as [s|] eqn:Hrun;
    [|vm_compute in Hrun; discriminate].
  exists s. split; [reflexivity|].
  split.
  - assert (Hpc : option_map (fun s => sys_pc s 1%nat)
                    (run two_hosts contention (all_idle fresh 0))
                  = Some (Holding "cert-x")) by (vm_compute; reflexivity).
    rewrite Hrun in Hpc. now injection Hpc.
  - exact (proj2 (leases_end_within_ttl two_hosts (60 * time.Second) contention
                    fresh 0 s H1 H2 eq_refl H4 Hrun)).
Defined.

Section Ownership.

Variable ms : nat -> MongoStorage.

Lemma step_owns_lease (a : action) (s s' : System) :
  invariant s -> owns_lease ms s -> step ms a s = Some s' -> owns_lease ms s'.
Proof.
  intros (I1 & I2 & I3 & I4 & I5) (O1 & O2).
  (* documents leave the collection and the holders are settled *)
  assert (Hshrink : forall db' now pcs',
             (forall x, In x (mongo.locks db') -> In x (mongo.locks (sys_db s))) ->
             (forall j k, pcs' j = Holding k -> sys_pc s j = Holding k) ->
             (forall j c k l, pcs' j = Running c k l ->
                              mongo.ld_instance l = InstanceID (ms j)) ->
             owns_lease ms (mkSystem db' now (settle db' pcs'))).
  { intros db' now pcs' Hsub HH HR. split; cbn [sys_db sys_pc].
    - intros j k Hj. apply settle_Holding in Hj as [Hj Hk].
      destruct (O1 j k (HH j k Hj)) as [d [Hd [Hdk Hdi]]].
      apply has_key_In in Hk as [d' [Hd' Hdk']].
      assert (d' = d)
        by (apply (unique_keys_same _ _ _ I2); auto; congruence).
      subst d'. now exists d.
    - intros j c k l Hj. apply settle_Running in Hj. eapply HR, Hj. }
  destruct a as [d | | i ctx key | i fault | i key fault]; cbn [step].
  - destruct (0 <=? d); [|discriminate].
    intros H; injection H as <-. split; assumption.
  - intros H; injection H as <-. apply Hshrink; trivial.
    intros x. unfold mongo.ttl_sweep.
    destruct (mongo.locks_ttl (sys_db s)); [|trivial].
    cbn [mongo.locks mongo.with_locks]. rewrite filter_In. tauto.
  - destruct (sys_pc s i) eqn:Hi; try discriminate.
    intros H; injection H as <-. split; cbn [sys_db sys_pc].
    + intros j k. destruct (Nat.eq_dec j i) as [->|Hne].
      * rewrite set_pc_same. discriminate.
      * rewrite set_pc_other by assumption. apply O1.
    + intros j c k l. destruct (Nat.eq_dec j i) as [->|Hne].
      * rewrite set_pc_same. intros H; injection H as _ _ <-. reflexivity.
      * rewrite set_pc_other by assumption. apply O2.
  - destruct (sys_pc s i) as [|ctx key lock| |] eqn:Hi; try discriminate.
    pose proof (Lock_iteration_database ctx key lock fault (sys_now s) (sys_db s))
      as Hit.
    destruct (Lock_iteration ctx key lock fault (sys_now s) (sys_db s))
      as [[db' res] evs].
    destruct Hit as [_ [_ Hdb]].
    intros H; injection H as <-. split; cbn [sys_db sys_pc].
    + intros j k. destruct (Nat.eq_dec j i) as [->|Hne].
      * rewrite set_pc_same.
        destruct Hdb as [[-> Hdb] | [Hres _]].
        -- intros H; injection H as <-. exists lock. rewrite Hdb.
           split; [apply in_or_app; right; now left|].
           split; [eapply I5, Hi | eapply O2, Hi].
        -- destruct res as [[e|]|]; try discriminate. now destruct Hres.
      * rewrite set_pc_other by assumption. intros Hj.
        destruct (O1 j k Hj) as [d [Hd Hrest]]. exists d.
        split; [|exact Hrest].
        destruct Hdb as [[_ Hdb] | [_ ->]]; [|exact Hd].
        rewrite Hdb. apply in_or_app. now left.
    + intros j c k l. destruct (Nat.eq_dec j i) as [->|Hne].
      * rewrite set_pc_same.
        destruct res as [[e|]|]; try discriminate.
        intros H; injection H as _ _ <-. eapply O2, Hi.
      * rewrite set_pc_other by assumption. apply O2.
  - assert (Hgo : forall p' db' err,
               (p' = sys_pc s i \/ p' = Idle) ->
               (forall c k l, sys_pc s i <> Running c k l) ->
               Unlock (ms i) fault key (sys_db s) = (db', err) ->
               owns_lease ms
                 (mkSystem db' (sys_now s)
                    (settle db' (set_pc (sys_pc s) i p')))).
    { intros p' db' err Hp' HnR HU. apply Hshrink.
      - destruct fault as [e|].
        + cbn in HU. injection HU as <- _. trivial.
        + rewrite Unlock_no_fault in HU. injection HU as <- _.
          intros x. apply remove_first_In.
      - intros j k. destruct (Nat.eq_dec j i) as [->|Hne].
        + rewrite set_pc_same. destruct Hp' as [-> | ->]; [trivial | discriminate].
        + now rewrite set_pc_other.
      - intros j c k l. destruct (Nat.eq_dec j i) as [->|Hne].
        + rewrite set_pc_same. destruct Hp' as [-> | ->]; [|discriminate].
          intros Hj. now destruct (HnR c k l).
        + rewrite set_pc_other by assumption. apply O2. }
    destruct (sys_pc s i) as [|c k l|k|k] eqn:Hi; [| discriminate | |];
      destruct (Unlock (ms i) fault key (sys_db s)) as [db' err] eqn:HU;
      intros H; injection H as <-;
      (eapply Hgo; [| discriminate | reflexivity]);
      destruct err; try destruct (String.eqb k key); auto.
Qed.

Lemma run_owns_lease (acts : list action) :
  forall s s' : System,
    invariant s -> owns_lease ms s -> run ms acts s = Some s' ->
    owns_lease ms s'.
Proof.
  induction acts as [|a acts IH]; intros s s' Inv O; cbn [run].
  - intros H; injection H as <-. exact O.
  - destruct (step ms a s) as [s1|] eqn:Hs; [|discriminate].
    apply IH.
    + eapply step_invariant; eassumption.
    + eapply step_owns_lease; eassumption.
Qed.

End Ownership.

(** X21.  The holder can always release.  In every state of every run on
    a database on which NewMongoStorage has built the indexes, the lease
    document of a caller that holds a key carries the InstanceID of the
    caller's storage; its Unlock of the key returns nil, removes that
    document and no other, and leaves the key free and held by nobody. *)
Theorem holder_releases :
  forall (ms : nat -> MongoStorage) (index_fault : option error)
         (kernel : option string) (db db0 : mongo.Database) (m : MongoStorage)
         (t0 : time.Time) (acts : list action) (s : System) (i : nat)
         (K : string),
    NewMongoStorage index_fault kernel db = (db0, (Some m, None)) ->
    run ms acts (all_idle db0 t0) = Some s ->
    holds s i K ->
    (exists d, In d (mongo.locks (sys_db s)) /\ mongo.ld_key d = K /\
               mongo.ld_instance d = InstanceID (ms i)) /\
    snd (Unlock (ms i) None K (sys_db s)) = None /\
    exists s',
      step ms (CallUnlock i K None) s = Some s' /\
      sys_pc s' i = Idle /\
      mongo.has_key K (mongo.locks (sys_db s')) = false /\
      (forall j, ~ holds s' j K) /\
      (forall d, In d (mongo.locks (sys_db s')) <->
                 In d (mongo.locks (sys_db s)) /\ mongo.ld_key d <> K).
Proof.
  intros ms index_fault kernel db db0 m t0 acts s i K Hnew Hrun Hi.
  destruct (NewMongoStorage_ok _ _ _ _ _ _ Hnew) as (_ & Hu & _ & _ & Hk).
  pose proof (all_idle_invariant db0 t0 Hu Hk) as Inv0.
  pose proof (run_invariant ms acts _ _ Inv0 Hrun) as Inv.
  assert (O0 : owns_lease ms (all_idle db0 t0))
    by (split; cbn [all_idle sys_pc]; discriminate).
  destruct (run_owns_lease ms acts _ _ Inv0 O0 Hrun) as [O1 _].
  destruct Inv as (I1 & I2 & _).
  destruct (O1 i K Hi) as [d [Hd [Hdk Hdi]]].
  split; [now exists d|].
  split; [now rewrite Unlock_no_fault|].
  unfold holds in Hi. cbn [step]. rewrite Hi, Unlock_no_fault, String.eqb_refl.
  eexists. split; [reflexivity|]. cbn [sys_db sys_pc mongo.locks mongo.with_locks].
  pose proof (remove_first_releases K (InstanceID (ms i)) _ d I2 Hd Hdk Hdi)
    as Hgone.
  split; [unfold settle; now rewrite set_pc_same|].
  split; [exact Hgone|].
  split.
  - intros j Hj. unfold holds in Hj. cbn [sys_pc] in Hj.
    apply settle_Holding in Hj as [_ Hj]. cbn [mongo.locks mongo.with_locks] in Hj.
    congruence.
  - intros x. split.
    + intros Hx. split; [eapply remove_first_In, Hx|].
      intros Hxk.
      assert (Ht : mongo.has_key K
                     (fst (mongo.remove_first
                             (mongo.lock_filter K (InstanceID (ms i)))
                             (mongo.locks (sys_db s)))) = true)
        by (apply has_key_In; now exists x).
      congruence.
    + intros [Hx Hxk]. apply remove_first_keeps; [exact Hx|].
      apply lock_filter_false. now left.
Qed.

Lemma holder_releases_witness :
  NewMongoStorage None (Some "host-a") mongo.empty
  = (fresh, (Some (storage_of "host-a"), None)) /\
  exists s : System,
    run two_hosts contention (all_idle fresh 0) = Some s /\
    holds s 1 "cert-x" /\
    exists s',
      step two_hosts (CallUnlock 1 "cert-x" None) s = Some s' /\
      sys_pc s' 1%nat = Idle /\
      mongo.has_key "cert-x" (mongo.locks (sys_db s')) = false.
Proof.
  assert (Hnew : NewMongoStorage None (Some "host-a") mongo.empty
                 = (fresh, (Some (storage_of "host-a"), None))) by reflexivity.
  split; [exact Hnew|].
  destruct (run two_hosts contention (all_idle fresh 0)) as [s|] eqn:Hrun;
    [|vm_compute in Hrun; discriminate].
  exists s. split; [reflexivity|].
  assert (Hholds : holds s 1 "cert-x").
  { assert (Hpc : option_map (fun s => sys_pc s 1%nat)
                    (run two_hosts contention (all_idle fresh 0))
                  = Some (Holding "cert-x")) by (vm_compute; reflexivity).
    rewrite Hrun in Hpc. now injection Hpc. }
  split; [exact Hholds|].
  destruct (holder_releases two_hosts None (Some "host-a") mongo.empty fresh
              (storage_of "host-a") 0 contention s 1 "cert-x" Hnew Hrun Hholds)
    as [_ [_ [s' [H1 [H2 [H3 _]]]]]].
  exists s'. auto.
Defined.

(* ================================================================= *)
(** ** Faults of the medium *)


